(** * chat_server: the room, session and dispatcher code of
      chat_server_server.cpp, embedded and checked against its specification.

    The repository holds three successive versions of one translation unit:
    - the single-room server (first half of src/chat_server), in module
      [SingleRoom];
    - the multi-room server with [get_or_create_room] (second half of
      src/chat_server), which the last version extends;
    - the current server (src/chat_server_server) with [remove_empty_room],
      [leave_room] and [check_message], modelled at top level.

    [ChatRoom] is the same class in all three. *)

From Stdlib Require Import ZArith Ascii String Lia.
From stdpp Require Import base gmap strings list fin_maps.

Local Open Scope Z_scope.

(** ** std::string operations used by the code *)

(** [s.find(c)]: index of the first occurrence, [None] for [npos]. *)
Fixpoint find (c : ascii) (s : string) : option nat :=
  match s with
  | EmptyString => None
  | String a s' => if Ascii.eqb a c then Some 0%nat else S <$> find c s'
  end.

(** [s.substr(pos)]: the suffix from [pos] (callers keep [pos <= size]). *)
Fixpoint substr_from (s : string) (pos : nat) : string :=
  match pos, s with
  | O, _ => s
  | S p, String _ s' => substr_from s' p
  | S _, EmptyString => EmptyString
  end.

(** [s.substr(0, n)]: the first [n] characters, fewer when [s] is shorter. *)
Fixpoint prefix (s : string) (n : nat) : string :=
  match n, s with
  | S k, String a s' => String a (prefix s' k)
  | _, _ => EmptyString
  end.

(** [s.substr(pos, n)]. *)
Definition substr (s : string) (pos n : nat) : string :=
  prefix (substr_from s pos) n.

(** All maximal segments between occurrences of [c]; never empty.  The
    segment boundaries are the values [start], [end] takes in the
    [while ((end = params.find('/', start)) != npos)] loop. *)
Fixpoint split_on (c : ascii) (s : string) : list string :=
  match s with
  | EmptyString => [EmptyString]
  | String a s' =>
      if Ascii.eqb a c then EmptyString :: split_on c s'
      else match split_on c s' with
           | seg :: segs => String a seg :: segs
           | [] => [String a EmptyString]
           end
  end.

(** ** Exceptions and console output *)

Definition Session := nat.

Inductive exn :=
| system_error (s : Session)   (* thrown by boost::asio::write *)
| invalid_argument             (* thrown by std::stoi: no conversion *)
| out_of_range.                (* thrown by std::stoi: value out of int *)

Inductive outcome :=
| Returned
| Thrown (e : exn).

(** One operand of a [<<] chain. *)
Inductive piece :=
| Str (s : string)
| Int (z : Z).

(** One line written to [std::cout] or [std::cerr]. *)
Inductive event :=
| Cout (l : list piece)
| Cerr (l : list piece).

(** ** std::stoi *)

Definition INT_MIN : Z := - 2 ^ 31.
Definition INT_MAX : Z := 2 ^ 31 - 1.

Definition isspace (c : ascii) : bool :=
  let n := nat_of_ascii c in
  (n =? 32)%nat || ((9 <=? n)%nat && (n <=? 13)%nat).

Definition isdigit (c : ascii) : bool :=
  let n := nat_of_ascii c in (48 <=? n)%nat && (n <=? 57)%nat.

Fixpoint skip_space (s : string) : string :=
  match s with
  | String a s' => if isspace a then skip_space s' else s
  | EmptyString => EmptyString
  end.

(** The leading run of decimal digits, most significant first. *)
Fixpoint digits (s : string) : list Z :=
  match s with
  | String a s' =>
      if isdigit a then (Z.of_nat (nat_of_ascii a) - 48) :: digits s' else []
  | EmptyString => []
  end.

Definition digits_value (ds : list Z) : Z :=
  foldl (λ acc d, 10 * acc + d) 0 ds.

(** [std::stoi(str)] (base 10): leading white space and one sign are
    accepted, trailing characters are ignored. *)
Definition stoi (str : string) : Z + exn :=
  let s := skip_space str in
  let '(neg, body) :=
    match s with
    | String "-" s' => (true, s')
    | String "+" s' => (false, s')
    | _ => (false, s)
    end in
  match digits body with
  | [] => inr invalid_argument
  | ds =>
      let v := if neg then - digits_value ds else digits_value ds in
      if (INT_MIN <=? v) && (v <=? INT_MAX) then inl v else inr out_of_range
  end.

(** ** The parameter map of check_message *)

(** [param_map[pair.substr(0, sep)] = pair.substr(sep + 1)] when the pair
    holds a [':'], nothing otherwise. *)
Definition store_pair (m : gmap string string) (pair : string)
  : gmap string string :=
  match find ":" pair with
  | Some sep => <[prefix pair sep := substr_from pair (S sep)]> m
  | None => m
  end.

(** The two parsing blocks of check_message: the [while] loop stores every
    segment that is followed by a ['/'], the [if (start < params.size())]
    block stores the remainder when it is not empty. *)
Definition parse_params (params : string) : gmap string string :=
  let segs := split_on "/" params in
  let m := foldl store_pair ∅ (removelast segs) in
  let rest := List.last segs EmptyString in
  if (0 <? String.length rest)%nat then store_pair m rest else m.

(** [param_map[key]] read as an rvalue: the mapped value, or a
    default-constructed (empty) string for an absent key. *)
Definition subscript (m : gmap string string) (key : string) : string :=
  default EmptyString (m !! key).

(** The line delimiter of the wire protocol. *)
Definition newline_char : ascii := ascii_of_nat 10.
Definition newline : string := String newline_char EmptyString.

(** ** The network as the rooms see it *)

(** [broken]: the connections on which a write fails; [sent]: the buffers
    written so far, oldest first. *)
Record Net := {
  broken : gset Session;
  sent : list (Session * string)
}.

(** A successful [boost::asio::write(member->get_socket(), buffer(data))]. *)
Definition write (member : Session) (data : string) (n : Net) : Net :=
  {| broken := broken n; sent := sent n ++ [(member, data)] |}.

(** What [member] has been sent, oldest first. *)
Definition received (n : Net) (member : Session) : list string :=
  snd <$> filter (λ p, p.1 = member) (sent n).

(** ** ChatRoom *)

(** [members_] is a [std::unordered_set]: a set whose iteration order is
    left to the container.  The order is a parameter of the model, a
    function of the set's contents constrained only to enumerate them. *)
Class UnorderedIteration := {
  iteration : gset Session → list Session;
  iteration_perm : ∀ X, iteration X ≡ₚ elements X
}.

(** One admissible container: iteration in the order of [elements]. *)
Definition elements_iteration : UnorderedIteration :=
  {| iteration := elements; iteration_perm := λ X, reflexivity (elements X) |}.

(** Another one: the reverse order. *)
Definition reverse_iteration : UnorderedIteration :=
  {| iteration := λ X, reverse (elements X);
     iteration_perm := λ X, reverse_Permutation (elements X) |}.

(** The class has the single data member [members_]. *)
Record ChatRoom := {
  members_ : gset Session
}.

Definition new_ChatRoom : ChatRoom := {| members_ := ∅ |}.

(** The class has no host member and no operation of the program stores a
    host anywhere else: the host a room records is null in every state. *)
Definition hostUserId (r : ChatRoom) : option Session := None.

(** The [for (auto& member : members_)] loop over the remaining members.
    [boost::asio::write] without an [error_code] argument throws
    [system_error] when the write fails, which leaves the loop. *)
Fixpoint broadcast_loop (l : list Session) (message : string) (n : Net)
  : Net * outcome :=
  match l with
  | [] => (n, Returned)
  | member :: l' =>
      if decide (member ∈ broken n) then (n, Thrown (system_error member))
      else broadcast_loop l' message (write member (message +:+ newline) n)
  end.

Section ChatRoom.
Context {U : UnorderedIteration}.

Definition broadcast (r : ChatRoom) (message : string) (n : Net)
  : Net * outcome :=
  broadcast_loop (iteration (members_ r)) message n.

Definition join (r : ChatRoom) (session : Session) (n : Net)
  : ChatRoom * Net * outcome :=
  let r' := {| members_ := {[session]} ∪ members_ r |} in
  let '(n', o) := broadcast r' "A new user has joined the chat." n in
  (r', n', o).

Definition leave (r : ChatRoom) (session : Session) (n : Net)
  : ChatRoom * Net * outcome :=
  let r' := {| members_ := members_ r ∖ {[session]} |} in
  let '(n', o) := broadcast r' "A user has left the chat." n in
  (r', n', o).

Definition member_count (r : ChatRoom) : nat := size (members_ r).
End ChatRoom.

(** ** The talks relation and save_message_to_db *)

Record TalkRow := {
  talk_id : Z;
  talk_room_id : Z;
  talk_user_id : Z;
  talk_text : string;
  published_date : string
}.

(** The database file: the rows of [talks] and the last id the
    AUTOINCREMENT key has handed out. *)
Record Database := {
  talks : list TalkRow;
  talks_seq : Z
}.

(** What the sqlite3 calls of one [save_message_to_db] answer:
    [sqlite3_open], [sqlite3_prepare_v2] and [sqlite3_step] succeed or not,
    [sqlite3_errmsg] and [datetime('now')]. *)
Record Sqlite := {
  open_ok : bool;
  prepare_ok : bool;
  step_ok : bool;
  errmsg : string;
  now : string
}.

(** [sqlite3_bind_text(stmt, 3, message.c_str(), -1, SQLITE_STATIC)]: with a
    negative length the text ends at the first zero byte. *)
Definition c_str (message : string) : string :=
  match find zero message with
  | Some i => prefix message i
  | None => message
  end.

Definition save_message_to_db (q : Sqlite) (room_id user_id : Z)
    (message : string) (d : Database) : Database * list event :=
  if negb (open_ok q) then
    (d, [Cerr [Str "Can't open database: "; Str (errmsg q)]])
  else if negb (prepare_ok q) then
    (d, [Cerr [Str "Failed to prepare statement: "; Str (errmsg q)]])
  else if negb (step_ok q) then
    (d, [Cerr [Str "Failed to insert message: "; Str (errmsg q)]])
  else
    ({| talks := talks d ++
          [{| talk_id := talks_seq d + 1; talk_room_id := room_id;
              talk_user_id := user_id; talk_text := c_str message;
              published_date := now q |}];
        talks_seq := talks_seq d + 1 |}, []).

(** ** ChatServer (current version) *)

Record ChatUser := {
  user_id_ : Z;
  endpoint_ : string;
  port_ : Z;
  name_ : string
}.

Record ChatServer := {
  rooms_ : gmap Z ChatRoom;
  users_ : gmap Z ChatUser;
  sessions_ : gmap Z Session
}.

Definition set_rooms (f : gmap Z ChatRoom → gmap Z ChatRoom) (srv : ChatServer)
  : ChatServer :=
  {| rooms_ := f (rooms_ srv); users_ := users_ srv;
     sessions_ := sessions_ srv |}.

(** Returns the room stored under [room_id], after storing a fresh one when
    there was none.  The C++ result is a reference into [rooms_]: callers
    that change the room write it back with [put_room]. *)
Definition get_or_create_room (srv : ChatServer) (room_id : Z)
  : ChatServer * ChatRoom :=
  match rooms_ srv !! room_id with
  | None => (set_rooms <[room_id := new_ChatRoom]> srv, new_ChatRoom)
  | Some room => (srv, room)
  end.

Definition put_room (room_id : Z) (room : ChatRoom) (srv : ChatServer)
  : ChatServer :=
  set_rooms <[room_id := room]> srv.

Definition remove_empty_room (srv : ChatServer) (room_id : Z)
  : ChatServer * list event :=
  match rooms_ srv !! room_id with
  | Some room =>
      if (member_count room =? 0)%nat then
        (set_rooms (delete room_id) srv,
         [Cout [Str "Room "; Int room_id;
                Str " has been removed (no members)."]])
      else (srv, [])
  | None => (srv, [])
  end.

Definition add_user (user : ChatUser) (srv : ChatServer) : ChatServer :=
  {| rooms_ := rooms_ srv; users_ := <[user_id_ user := user]> (users_ srv);
     sessions_ := sessions_ srv |}.

Definition get_user (srv : ChatServer) (user_id : Z) : option ChatUser :=
  users_ srv !! user_id.

Definition remove_user (user_id : Z) (srv : ChatServer) : ChatServer :=
  {| rooms_ := rooms_ srv; users_ := delete user_id (users_ srv);
     sessions_ := sessions_ srv |}.

(** Everything a handler can touch. *)
Record World := {
  server : ChatServer;
  net : Net;
  db : Database;
  console : list event
}.

Definition log (evs : list event) (w : World) : World :=
  {| server := server w; net := net w; db := db w;
     console := console w ++ evs |}.

(** ** ChatSession (current version) *)

Record ChatSession := {
  self_ : Session;
  room_id_ : Z;
  buffer_ : string
}.

(** How an [async_read_until] completes: with [ec] clear once [buffer_]
    holds a delimiter, or with an error. *)
Inductive completion :=
| Success
| Failure (ec_message : string).

(** The [length] handed to the handler: the bytes up to and including the
    first delimiter in the buffer. *)
Definition line_length (buffer : string) : option nat :=
  S <$> find newline_char buffer.

Section Sessions.
Context {U : UnorderedIteration}.

(** [server_.get_or_create_room(room_id).f(session)] for a member
    function [f] of ChatRoom, acting on the room inside [rooms_]. *)
Definition on_room (f : ChatRoom → Session → Net → ChatRoom * Net * outcome)
    (room_id : Z) (session : Session) (w : World) : World * outcome :=
  let '(srv, room) := get_or_create_room (server w) room_id in
  let '(room', n, o) := f room session (net w) in
  ({| server := put_room room_id room' srv; net := n; db := db w;
      console := console w |}, o).

Definition leave_room (cs : ChatSession) (w : World) : World * outcome :=
  match on_room leave (room_id_ cs) (self_ cs) w with
  | (w1, Returned) =>
      let '(srv, evs) := remove_empty_room (server w1) (room_id_ cs) in
      (log evs {| server := srv; net := net w1; db := db w1;
                  console := console w1 |}, Returned)
  | (w1, Thrown e) => (w1, Thrown e)
  end.

(** The V3 [parse_initial_data]: only [room_id_] is assigned. *)
Definition parse_initial_data (cs : ChatSession) (data : string)
  : ChatSession * list event * outcome :=
  match find "," data with
  | Some comma_pos =>
      match stoi (prefix data comma_pos) with
      | inl v => ({| self_ := self_ cs; room_id_ := v;
                     buffer_ := buffer_ cs |}, [], Returned)
      | inr e => (cs, [], Thrown e)
      end
  | None => (cs, [Cerr [Str "Invalid data format: "; Str data]], Returned)
  end.

(** The handler of [read_initial_data]. *)
Definition on_initial_data (cs : ChatSession) (c : completion) (w : World)
  : ChatSession * World * outcome :=
  match c with
  | Failure m =>
      (cs, log [Cerr [Str "Error reading initial data: "; Str m]] w,
       Returned)
  | Success =>
      match line_length (buffer_ cs) with
      | None => (cs, w, Returned)
      | Some length =>
          let data := substr (buffer_ cs) 0 (length - 1) in
          let cs1 := {| self_ := self_ cs; room_id_ := room_id_ cs;
                        buffer_ := substr_from (buffer_ cs) length |} in
          match parse_initial_data cs1 data with
          | (cs2, evs, Returned) =>
              let '(w', o) :=
                on_room join (room_id_ cs2) (self_ cs2) (log evs w) in
              (cs2, w', o)
          | (cs2, evs, Thrown e) => (cs2, log evs w, Thrown e)
          end
      end
  end.

(** The handler of [do_read]. *)
Definition on_read (cs : ChatSession) (c : completion) (w : World)
  : ChatSession * World * outcome :=
  match c with
  | Failure _ =>
      let '(w', o) := on_room leave (room_id_ cs) (self_ cs) w in
      (cs, w', o)
  | Success =>
      match line_length (buffer_ cs) with
      | None => (cs, w, Returned)
      | Some length =>
          let message := substr (buffer_ cs) 0 (length - 1) in
          let cs1 := {| self_ := self_ cs; room_id_ := room_id_ cs;
                        buffer_ := substr_from (buffer_ cs) length |} in
          let '(w', o) :=
            on_room (λ room _ n, let '(n', o) := broadcast room message n in
                                 (room, n', o))
                    (room_id_ cs1) (self_ cs1) w in
          (cs1, w', o)
      end
  end.
End Sessions.

(** ** check_message *)

(** [int x = stoi(param_map[key]); ...]: the rest of the handler runs only
    when the conversion returns. *)
Definition with_stoi (param_map : gmap string string) (key : string)
    (k : Z → list event * outcome) : list event * outcome :=
  match stoi (subscript param_map key) with
  | inl v => k v
  | inr e => ([], Thrown e)
  end.

(** The [switch (command[0])] of check_message with the string comparisons
    inside each case.  A case whose comparisons all fail ends at its
    [break] without output. *)
Definition dispatch (command : string) (param_map : gmap string string)
  : list event * outcome :=
  match command with
  | EmptyString => ([Cerr [Str "Empty command received."]], Returned)
  | String c0 _ =>
      if Ascii.eqb c0 "c" then
        if String.eqb command "create_user" then
          let id := subscript param_map "id" in
          let password := subscript param_map "password" in
          ([Cout [Str "Creating user with id: "; Str id;
                  Str " and password: "; Str password]], Returned)
        else if String.eqb command "create_room"
                || String.eqb command "invite_user" then
          let title := subscript param_map "title" in
          ([Cout [Str "Creating room or inviting with title: "; Str title]],
           Returned)
        else ([], Returned)
      else if Ascii.eqb c0 "l" then
        if String.eqb command "login_user" then
          let id := subscript param_map "id" in
          let password := subscript param_map "password" in
          ([Cout [Str "Logging in user with id: "; Str id;
                  Str " and password: "; Str password]], Returned)
        else ([], Returned)
      else if Ascii.eqb c0 "j" then
        if String.eqb command "join_room" then
          with_stoi param_map "room_id" (λ room_id,
            ([Cout [Str "Joining room with id: "; Int room_id]], Returned))
        else ([], Returned)
      else if Ascii.eqb c0 "s" then
        if String.eqb command "send_text" then
          with_stoi param_map "room_id" (λ room_id,
          with_stoi param_map "user_id" (λ user_id,
            let text := subscript param_map "text" in
            ([Cout [Str "User "; Int user_id; Str " is sending message: ";
                    Str text; Str " in room "; Int room_id]], Returned)))
        else ([], Returned)
      else if Ascii.eqb c0 "e" then
        if String.eqb command "exit_room" then
          with_stoi param_map "room_id" (λ room_id,
          with_stoi param_map "user_id" (λ user_id,
            ([Cout [Str "User "; Int user_id; Str " is exiting room ";
                    Int room_id]], Returned)))
        else ([], Returned)
      else if Ascii.eqb c0 "k" then
        if String.eqb command "kick_user" then
          with_stoi param_map "room_id" (λ room_id,
          with_stoi param_map "user_id" (λ user_id,
          with_stoi param_map "target_user_id" (λ target_user_id,
            ([Cout [Str "User "; Int user_id; Str " is kicking user ";
                    Int target_user_id; Str " from room "; Int room_id]],
             Returned))))
        else ([], Returned)
      else if Ascii.eqb c0 "g" then
        if String.eqb command "grant_host" then
          with_stoi param_map "room_id" (λ room_id,
          with_stoi param_map "user_id" (λ user_id,
          with_stoi param_map "target_user_id" (λ target_user_id,
            ([Cout [Str "User "; Int user_id;
                    Str " is granting host role to user ";
                    Int target_user_id; Str " in room "; Int room_id]],
             Returned))))
        else ([], Returned)
      else ([Cerr [Str "Unknown command: "; Str command]], Returned)
  end.

(** [ChatServer::check_message].  It reads and writes no member of the
    server: the world it returns differs from its argument in the console
    only. *)
Definition check_message (message : string) (w : World) : World * outcome :=
  match find "?" message with
  | None => (log [Cerr [Str "Invalid message format: "; Str message]] w,
             Returned)
  | Some delimiter_pos =>
      let command := substr message 0 delimiter_pos in
      let params := substr_from message (delimiter_pos + 1) in
      let param_map := parse_params params in
      let '(evs, o) := dispatch command param_map in
      (log evs w, o)
  end.

(** The nine commands of the protocol. *)
Definition recognized : list string :=
  ["create_user"; "login_user"; "create_room"; "invite_user"; "join_room";
   "send_text"; "exit_room"; "kick_user"; "grant_host"].

(** ** The single-room server (first version in src/chat_server) *)

Module SingleRoom.

Record ChatServer := {
  room_ : ChatRoom
}.

Record ChatSession := {
  self_ : Session;
  room_id_ : Z;
  user_id_ : Z;
  buffer_ : string
}.

Record World := {
  server : ChatServer;
  net : Net;
  db : Database;
  console : list event
}.

(** [do_accept] builds every session with the fixed ids 1 and 1. *)
Definition accept (session : Session) : ChatSession :=
  {| self_ := session; room_id_ := 1; user_id_ := 1;
     buffer_ := EmptyString |}.

Section Handlers.
Context {U : UnorderedIteration}.
Variable q : Sqlite.

(** [ChatSession::start]: [room_.join(self)]. *)
Definition start (cs : ChatSession) (w : World) : World * outcome :=
  let '(room', n, o) := join (room_ (server w)) (self_ cs) (net w) in
  ({| server := {| room_ := room' |}; net := n; db := db w;
      console := console w |}, o).

(** The handler of [do_read]: broadcast, then save, on a line; leave on
    an error. *)
Definition on_read (cs : ChatSession) (c : completion) (w : World)
  : ChatSession * World * outcome :=
  match c with
  | Failure _ =>
      let '(room', n, o) := leave (room_ (server w)) (self_ cs) (net w) in
      (cs, {| server := {| room_ := room' |}; net := n; db := db w;
              console := console w |}, o)
  | Success =>
      match line_length (buffer_ cs) with
      | None => (cs, w, Returned)
      | Some length =>
          let message := substr (buffer_ cs) 0 (length - 1) in
          let cs1 := {| self_ := self_ cs; room_id_ := room_id_ cs;
                        user_id_ := user_id_ cs;
                        buffer_ := substr_from (buffer_ cs) length |} in
          match broadcast (room_ (server w)) message (net w) with
          | (n, Returned) =>
              let '(d, evs) :=
                save_message_to_db q (room_id_ cs1) (user_id_ cs1)
                                   message (db w) in
              (cs1, {| server := server w; net := n; db := d;
                       console := console w ++ evs |}, Returned)
          | (n, Thrown e) =>
              (cs1, {| server := server w; net := n; db := db w;
                       console := console w |}, Thrown e)
          end
      end
  end.
End Handlers.

End SingleRoom.

(** * Vocabulary of the specification *)

(** The reading of a token by the grammar [key:value]: split at the first
    [':'], no pair without one. *)
Definition token_pair (tok : string) : option (string * string) :=
  match find ":" tok with
  | Some sep => Some (prefix tok sep, substr_from tok (S sep))
  | None => None
  end.

(** The value of the last token of [toks] whose key is [key]. *)
Definition last_value (key : string) (toks : list string) : option string :=
  snd <$> last (filter (λ p, p.1 = key) (omap token_pair toks)).

(** The buffers a broadcast of [message] writes to the members [l], in
    order. *)
Definition deliveries (l : list Session) (message : string)
  : list (Session * string) :=
  (λ m, (m, message +:+ newline)) <$> l.

(** The states a server starts from. *)
Definition empty_net : Net := {| broken := ∅; sent := [] |}.

Definition fresh_database : Database := {| talks := []; talks_seq := 0 |}.

Definition initial_server : ChatServer :=
  {| rooms_ := ∅; users_ := ∅; sessions_ := ∅ |}.

Definition initial_world : World :=
  {| server := initial_server; net := empty_net; db := fresh_database;
     console := [] |}.

(** The two notices of ChatRoom. *)
Definition join_notice : string := "A new user has joined the chat.".
Definition leave_notice : string := "A user has left the chat.".

(** Rooms used as concrete inputs. *)
Definition room_of (l : list Session) : ChatRoom :=
  {| members_ := list_to_set l |}.

(** C6 as the specification words it: the broadcast returns to its caller
    and every member whose connection is sound has been written the
    message. *)
Definition broadcast_isolates (U : UnorderedIteration) (r : ChatRoom)
    (message : string) (n : Net) : Prop :=
  let '(n', o) := broadcast r message n in
  o = Returned
  ∧ ∀ m, m ∈ members_ r → m ∉ broken n → (m, message +:+ newline) ∈ sent n'.

(** C5's host clause as the specification words it: joining an empty room
    makes the session its host. *)
Definition first_member_becomes_host (U : UnorderedIteration) (r : ChatRoom)
    (s : Session) (n : Net) : Prop :=
  members_ r = ∅ → hostUserId (join r s n).1.1 = Some s.

(** C1's failover clause as the specification words it: when [host] has
    left and members remain, one of them is the room's host. *)
Definition host_reassigned (U : UnorderedIteration) (r : ChatRoom)
    (host : Session) (n : Net) : Prop :=
  let r' := (leave r host n).1.1 in
  members_ r' ≠ ∅ → ∃ h, h ∈ members_ r' ∧ hostUserId r' = Some h.

(** The message announcing a removed room. *)
Definition room_removed (room_id : Z) : event :=
  Cout [Str "Room "; Int room_id; Str " has been removed (no members)."].

(** A session that has just been accepted, with the first line it sent.
    The constructor does not initialise [room_id_]: the member holds
    whatever value [indeterminate] the memory held. *)
Definition connecting (session : Session) (indeterminate : Z) (line : string)
  : ChatSession :=
  {| self_ := session; room_id_ := indeterminate;
     buffer_ := line +:+ newline |}.

(** One such value, for concrete inputs. *)
Definition stale_int : Z := -858993460.

(** C7 as the specification words it: the handler fails, by raising or by
    reporting on the error stream. *)
Definition fails (res : World * outcome) : Prop :=
  res.2 ≠ Returned ∨ ∃ l, Cerr l ∈ console res.1.

(** The first characters the [switch] has a case for. *)
Definition switch_cases : list ascii :=
  ["c"; "l"; "j"; "s"; "e"; "k"; "g"]%char.

(** The row [save_message_to_db] inserts. *)
Definition saved_row (q : Sqlite) (d : Database) (room_id user_id : Z)
    (message : string) : TalkRow :=
  {| talk_id := talks_seq d + 1; talk_room_id := room_id;
     talk_user_id := user_id; talk_text := c_str message;
     published_date := now q |}.

(** An sqlite whose every call succeeds. *)
Definition sound_sqlite : Sqlite :=
  {| open_ok := true; prepare_ok := true; step_ok := true;
     errmsg := "not an error"; now := "2024-01-01 00:00:00" |}.

(** The single-room server with session 1 in its room and connected. *)
Definition single_room_world : SingleRoom.World :=
  {| SingleRoom.server := {| SingleRoom.room_ := room_of [1%nat] |};
     SingleRoom.net := empty_net; SingleRoom.db := fresh_database;
     SingleRoom.console := [] |}.

Definition single_room_session (line : string) : SingleRoom.ChatSession :=
  {| SingleRoom.self_ := 1%nat; SingleRoom.room_id_ := 1;
     SingleRoom.user_id_ := 1; SingleRoom.buffer_ := line +:+ newline |}.

(** Membership of a given element in a given list, and its negation. *)
Ltac in_list :=
  repeat first [apply list_elem_of_here | apply list_elem_of_further].

Ltac not_in_list :=
  let H := fresh in
  intros H;
  repeat (apply elem_of_cons in H as [H|H]; [discriminate H |]);
  by apply elem_of_nil in H.

(** The parameter section a client builds from segments: the segments
    separated by [c]. *)
Fixpoint join_with (c : ascii) (segs : list string) : string :=
  match segs with
  | [] => EmptyString
  | [seg] => seg
  | seg :: segs' => seg +:+ String c (join_with c segs')
  end.

(** The token of the grammar for a key and its value. *)
Definition encode_pair (kv : string * string) : string :=
  kv.1 +:+ String ":" kv.2.

(** A pair the grammar can carry: no [':'] or ['/'] in the key, no ['/'] in
    the value. *)
Definition carried (kv : string * string) : Prop :=
  find ":" kv.1 = None ∧ find "/" kv.1 = None ∧ find "/" kv.2 = None.

(** The map that assigning the pairs in order builds. *)
Definition assigned (kvs : list (string * string)) : gmap string string :=
  foldl (λ m kv, <[kv.1 := kv.2]> m) ∅ kvs.

(** Whether a segment holds a [':']. *)
Definition has_colon (seg : string) : bool :=
  match find ":" seg with Some _ => true | None => false end.

(** The sign that [stoi] reads after the white space, with what follows
    it. *)
Definition sign_split (s : string) : bool * string :=
  match s with
  | String "-" s' => (true, s')
  | String "+" s' => (false, s')
  | _ => (false, s)
  end.

(** A message with a zero byte in it. *)
Definition zero_in_the_middle : string :=
  String "a" (String zero (String "b" EmptyString)).

(** What stands between two ['/'] of a parameter section, as a client
    writes it: a pair [key:value], or text without a [':']. *)
Inductive token :=
| Junk (text : string)
| Pair (key value : string).

Definition render (t : token) : string :=
  match t with
  | Junk text => text
  | Pair key value => key +:+ String ":" value
  end.

(** The characters of a string. *)
Definition chars (s : string) : list ascii := String.list_ascii_of_string s.

(** A token that reads back as itself: no ['/'] anywhere, and no [':'] in
    a key or in text that is not a pair. *)
Definition well_formed (t : token) : Prop :=
  match t with
  | Junk text => (":"%char ∉ chars text) ∧ ("/"%char ∉ chars text)
  | Pair key value =>
      (":"%char ∉ chars key) ∧ ("/"%char ∉ chars key)
      ∧ ("/"%char ∉ chars value)
  end.


(** * Properties *)

(** ** Strings *)

Lemma find_None_iff (c : ascii) (s : string) :
  find c s = None ↔ c ∉ String.list_ascii_of_string s.
Proof.
  induction s as [|a s IH]; simpl.
  - split; [intros _; apply not_elem_of_nil | done].
  - destruct (Ascii.eqb_spec a c) as [->|Hne].
    + split; [done | intros H; exfalso; apply H; left].
    + rewrite not_elem_of_cons, <- IH.
      destruct (find c s); simpl; intuition congruence.
Qed.

Lemma find_app_delim (c : ascii) (s1 s2 : string) :
  find c s1 = None →
  find c (s1 +:+ String c s2) = Some (String.length s1).
Proof.
  induction s1 as [|a s1 IH]; simpl.
  - intros _. by rewrite Ascii.eqb_refl.
  - destruct (Ascii.eqb a c); [done |].
    destruct (find c s1) eqn:E; [done |]. intros _. by rewrite IH.
Qed.

Lemma prefix_app (s1 s2 : string) : prefix (s1 +:+ s2) (String.length s1) = s1.
Proof. induction s1 as [|a s1 IH]; simpl; [by destruct s2 | by rewrite IH]. Qed.

Lemma substr_from_0 (s : string) : substr_from s 0 = s.
Proof. by destruct s. Qed.

Lemma substr_from_app (s1 s2 : string) :
  substr_from (s1 +:+ s2) (String.length s1) = s2.
Proof. induction s1 as [|a s1 IH]; simpl; [by destruct s2 | exact IH]. Qed.

Lemma substr_from_app_S (c : ascii) (s1 s2 : string) :
  substr_from (s1 +:+ String c s2) (String.length s1 + 1) = s2.
Proof.
  induction s1 as [|a s1 IH]; simpl; [by destruct s2 | exact IH].
Qed.

(** ** std::stoi *)

Example stoi_prefix : stoi " 12abc" = inl 12.
Proof. reflexivity. Qed.

Example stoi_negative : stoi "-7" = inl (-7).
Proof. reflexivity. Qed.

Example stoi_no_digits : stoi "abc" = inr invalid_argument.
Proof. reflexivity. Qed.

Example stoi_too_large : stoi "2147483648" = inr out_of_range.
Proof. reflexivity. Qed.

(** ** The parameter map *)

Example parse_params_trailing :
  parse_params "a:1/b:2/a:3/junk/" = {["a" := "3"; "b" := "2"]}.
Proof. vm_compute. reflexivity. Qed.

Lemma store_pair_token (m : gmap string string) (tok : string) :
  store_pair m tok =
  match token_pair tok with Some (k, v) => <[k := v]> m | None => m end.
Proof. unfold store_pair, token_pair. by destruct (find ":" tok). Qed.

Lemma last_value_snoc (key tok : string) (toks : list string) :
  last_value key (toks ++ [tok]) =
  match token_pair tok with
  | Some (k, v) => if decide (k = key) then Some v else last_value key toks
  | None => last_value key toks
  end.
Proof.
  unfold last_value. rewrite omap_app, filter_app. simpl.
  destruct (token_pair tok) as [[k v]|]; simpl.
  - rewrite filter_cons. simpl. case_decide.
    + by rewrite filter_nil, last_snoc.
    + by rewrite filter_nil, app_nil_r.
  - by rewrite filter_nil, app_nil_r.
Qed.

Lemma foldl_store_pair_lookup (toks : list string) (m : gmap string string)
    (key : string) :
  foldl store_pair m toks !! key =
  match last_value key toks with Some v => Some v | None => m !! key end.
Proof.
  induction toks as [|tok toks IH] using rev_ind; [done |].
  rewrite foldl_snoc, store_pair_token, last_value_snoc.
  destruct (token_pair tok) as [[k v]|]; [| exact IH].
  case_decide as Hk.
  - subst. apply lookup_insert_eq.
  - rewrite lookup_insert_ne by done. exact IH.
Qed.

Lemma split_on_nonempty (c : ascii) (s : string) : split_on c s ≠ [].
Proof.
  destruct s as [|a s]; simpl; [done |].
  destruct (Ascii.eqb a c); [done |]. by destruct (split_on c s).
Qed.

(** The two parsing blocks together store every segment, in order. *)
Lemma parse_params_foldl (params : string) :
  parse_params params = foldl store_pair ∅ (split_on "/" params).
Proof.
  unfold parse_params.
  destruct (exists_last (split_on_nonempty "/" params)) as (segs & rest & ->).
  rewrite removelast_last, last_last, foldl_snoc.
  destruct rest as [|a rest]; simpl; [| done].
  by rewrite store_pair_token.
Qed.

(** The lookup of the parsed map through the segments of the section. *)
Lemma parse_params_lookup (params key : string) :
  parse_params params !! key = last_value key (split_on "/" params).
Proof.
  rewrite parse_params_foldl, foldl_store_pair_lookup, lookup_empty.
  by destruct (last_value key (split_on "/" params)).
Qed.

Example parse_params_repeated :
  parse_params "k:old/x:1/k:new" !! "k" = Some "new"
  ∧ last_value "k" (split_on "/" "k:old/x:1/k:new") = Some "new".
Proof. split; vm_compute; reflexivity. Qed.

(** ** Broadcast *)

Lemma broadcast_loop_healthy (l : list Session) (message : string) (n : Net) :
  (∀ m, m ∈ l → m ∉ broken n) →
  broadcast_loop l message n =
  ({| broken := broken n; sent := sent n ++ deliveries l message |}, Returned).
Proof.
  revert n. induction l as [|x l IH]; intros n Hl; simpl.
  - rewrite app_nil_r. by destruct n.
  - rewrite decide_False by (apply Hl; left).
    rewrite IH by (intros m Hm; apply Hl; by right).
    simpl. by rewrite <- app_assoc.
Qed.

Lemma broadcast_loop_broken (l1 l2 : list Session) (x : Session)
    (message : string) (n : Net) :
  (∀ m, m ∈ l1 → m ∉ broken n) → x ∈ broken n →
  broadcast_loop (l1 ++ x :: l2) message n =
  ({| broken := broken n; sent := sent n ++ deliveries l1 message |},
   Thrown (system_error x)).
Proof.
  revert n. induction l1 as [|y l1 IH]; intros n Hl Hx; simpl.
  - rewrite decide_True by done. rewrite app_nil_r. by destruct n.
  - rewrite decide_False by (apply Hl; left).
    rewrite IH; simpl; [by rewrite <- app_assoc | | done].
    intros m Hm. apply Hl. by right.
Qed.

(** The first member of [l] in [B], with the members before it. *)
Lemma first_broken (l : list Session) (B : gset Session) :
  (∃ m, m ∈ l ∧ m ∈ B) →
  ∃ l1 x l2, l = l1 ++ x :: l2 ∧ x ∈ B ∧ ∀ m, m ∈ l1 → m ∉ B.
Proof.
  induction l as [|y l IH]; intros (m & Hm & HB).
  - by apply elem_of_nil in Hm.
  - destruct (decide (y ∈ B)) as [Hy|Hy].
    + exists [], y, l. split; [done |]. split; [done |].
      intros ? H. by apply elem_of_nil in H.
    + apply elem_of_cons in Hm as [->|Hm]; [done |].
      destruct IH as (l1 & x & l2 & -> & Hx & Hl1); [by exists m |].
      exists (y :: l1), x, l2. split; [done |]. split; [done |].
      intros k Hk. apply elem_of_cons in Hk as [->|Hk]; [done | by apply Hl1].
Qed.

Section RoomFacts.
Context {U : UnorderedIteration}.

Lemma iteration_elem_of (X : gset Session) (m : Session) :
  m ∈ iteration X ↔ m ∈ X.
Proof. by rewrite iteration_perm, elem_of_elements. Qed.

Lemma iteration_NoDup (X : gset Session) : NoDup (iteration X).
Proof. rewrite iteration_perm. apply NoDup_elements. Qed.

Lemma iteration_length (X : gset Session) : length (iteration X) = size X.
Proof. by rewrite iteration_perm. Qed.

Lemma broadcast_healthy (r : ChatRoom) (message : string) (n : Net) :
  (∀ m, m ∈ members_ r → m ∉ broken n) →
  broadcast r message n =
  ({| broken := broken n;
      sent := sent n ++ deliveries (iteration (members_ r)) message |},
   Returned).
Proof.
  intros H. apply broadcast_loop_healthy.
  intros m Hm. by apply H, iteration_elem_of.
Qed.

Lemma broadcast_empty (r : ChatRoom) (message : string) (n : Net) :
  members_ r = ∅ → broadcast r message n = (n, Returned).
Proof.
  intros E. unfold broadcast.
  assert (iteration (members_ r) = []) as ->.
  { apply Permutation_nil_r. rewrite iteration_perm, E.
    by rewrite elements_empty. }
  done.
Qed.
End RoomFacts.

Lemma filter_deliveries (l : list Session) (message : string) (m : Session) :
  NoDup l →
  (filter (λ p, p.1 = m) (deliveries l message)).*2 =
  if decide (m ∈ l) then [message +:+ newline] else [].
Proof.
  induction 1 as [|x l Hx Hl IH]; [done |].
  unfold deliveries in *. rewrite fmap_cons, filter_cons. simpl.
  destruct (decide (x = m)) as [->|Hne].
  - rewrite decide_True by left. rewrite decide_False in IH by done.
    simpl. f_equal. exact IH.
  - rewrite IH. destruct (decide (m ∈ l)) as [Hm|Hm].
    + rewrite decide_True by (by right). done.
    + rewrite decide_False; [done |].
      intros H. apply elem_of_cons in H as [?|?]; congruence.
Qed.

(** What one broadcast adds to what [m] has received. *)
Lemma received_deliveries (n : Net) (l : list Session) (message : string)
    (m : Session) :
  NoDup l →
  received {| broken := broken n; sent := sent n ++ deliveries l message |} m =
  received n m ++ (if decide (m ∈ l) then [message +:+ newline] else []).
Proof.
  intros Hl. unfold received. simpl.
  by rewrite filter_app, fmap_app, filter_deliveries.
Qed.

(** ** ChatRoom::join and ChatRoom::leave *)

Section RoomClaims.
Context {U : UnorderedIteration}.

(** A broadcast to sound connections returns, and adds exactly one copy
    of the line to what each member has received, nothing to others. *)
Lemma broadcast_received (r : ChatRoom) (message : string) (n : Net) :
  (∀ m, m ∈ members_ r → m ∉ broken n) →
  (broadcast r message n).2 = Returned
  ∧ ∀ m, received (broadcast r message n).1 m =
         received n m ++
         (if decide (m ∈ members_ r) then [message +:+ newline] else []).
Proof.
  intros H. rewrite broadcast_healthy by done. split; [done |].
  intros m. simpl. rewrite received_deliveries by apply iteration_NoDup.
  f_equal. apply decide_ext, iteration_elem_of.
Qed.

Lemma join_unfold (r : ChatRoom) (s : Session) (n : Net) :
  join r s n =
  let r' := {| members_ := {[s]} ∪ members_ r |} in
  (r', (broadcast r' join_notice n).1, (broadcast r' join_notice n).2).
Proof. unfold join, join_notice. by destruct (broadcast _ _ n). Qed.

Lemma leave_unfold (r : ChatRoom) (s : Session) (n : Net) :
  leave r s n =
  let r' := {| members_ := members_ r ∖ {[s]} |} in
  (r', (broadcast r' leave_notice n).1, (broadcast r' leave_notice n).2).
Proof. unfold leave, leave_notice. by destruct (broadcast _ _ n). Qed.


(** C5, amended. Room join contract: [join(s)] inserts [s] into the
    membership set and then runs the broadcast of the join notice over
    the membership that now includes [s]; the room records no host,
    before or after.  When the connections of [s] and of the previous
    members are sound, the broadcast returns and each of them receives
    exactly one copy of the notice, and nobody else receives anything. *)
Theorem join_inserts_and_notifies (r : ChatRoom) (s : Session) (n : Net) :
  members_ (join r s n).1.1 = {[s]} ∪ members_ r
  ∧ hostUserId (join r s n).1.1 = None
  ∧ ((join r s n).1.2, (join r s n).2) =
    broadcast {| members_ := {[s]} ∪ members_ r |} join_notice n
  ∧ ((∀ m, m ∈ {[s]} ∪ members_ r → m ∉ broken n) →
     (join r s n).2 = Returned
     ∧ ∀ m, received (join r s n).1.2 m =
            received n m ++
            (if decide (m = s ∨ m ∈ members_ r)
             then [join_notice +:+ newline] else [])).
Proof.
  rewrite join_unfold. simpl.
  split; [done |]. split; [done |].
  split; [by destruct (broadcast _ _ n) |].
  intros H.
  destruct (broadcast_received {| members_ := {[s]} ∪ members_ r |}
              join_notice n H) as [Ho Hr].
  split; [exact Ho |].
  intros m. rewrite Hr. simpl. f_equal. apply decide_ext.
  by rewrite elem_of_union, elem_of_singleton.
Qed.

(** C6, amended. Broadcast order and failure: broadcast visits the
    members in the iteration order of the unordered membership set, an
    enumeration of the members without repetition that need not be the
    insertion order.  When every member's connection is sound, it writes
    the message line to each member in that order and returns.  When some
    member's connection is broken, the write to the first such member [x]
    in the order raises [system_error] out of broadcast: the members
    before [x] have been written, [x] and the members after it have
    not. *)
Theorem broadcast_order_and_failure (r : ChatRoom) (message : string)
    (n : Net) :
  (NoDup (iteration (members_ r))
   ∧ ∀ m, m ∈ iteration (members_ r) ↔ m ∈ members_ r)
  ∧ ((∀ m, m ∈ members_ r → m ∉ broken n) →
     broadcast r message n =
     ({| broken := broken n;
         sent := sent n ++ deliveries (iteration (members_ r)) message |},
      Returned))
  ∧ ((∃ m, m ∈ members_ r ∧ m ∈ broken n) →
     ∃ l1 x l2,
       iteration (members_ r) = l1 ++ x :: l2
       ∧ x ∈ broken n ∧ (∀ m, m ∈ l1 → m ∉ broken n)
       ∧ broadcast r message n =
         ({| broken := broken n;
             sent := sent n ++ deliveries l1 message |},
          Thrown (system_error x))).
Proof.
  split; [split; [apply iteration_NoDup | apply iteration_elem_of] |].
  split; [apply broadcast_healthy |].
  intros (m & Hm & Hb).
  destruct (first_broken (iteration (members_ r)) (broken n))
    as (l1 & x & l2 & E & Hx & Hl1).
  { exists m. by rewrite iteration_elem_of. }
  exists l1, x, l2.
  split; [done |]. split; [done |]. split; [done |].
  unfold broadcast. rewrite E. by apply broadcast_loop_broken.
Qed.
End RoomClaims.


(** C5 fails on its host clause: after session 5 joins the empty room, the
    room's host is not session 5. *)
Lemma join_first_member_not_host :
  ¬ first_member_becomes_host elements_iteration new_ChatRoom 5%nat empty_net.
Proof. intros H. specialize (H eq_refl). discriminate H. Qed.


(** C6 fails on isolation: in the room of sessions 1, 2 and 3 the
    container visits 2 first; with the connection of 2 broken the broadcast
    raises and neither 3 nor 1 is written. *)
Lemma broadcast_failure_blocks_others :
  let r := room_of [1; 2; 3]%nat in
  let n := {| broken := {[2%nat]}; sent := [] |} in
  @broadcast elements_iteration r "hi" n = (n, Thrown (system_error 2%nat))
  ∧ ¬ broadcast_isolates elements_iteration r "hi" n.
Proof.
  intros r n.
  assert (@broadcast elements_iteration r "hi" n
          = (n, Thrown (system_error 2%nat))) as E by (vm_compute; reflexivity).
  split; [exact E |].
  unfold broadcast_isolates. rewrite E. intros [H _]. discriminate H.
Qed.

(** ** What a room does not record *)

(** The room reached by two joins does not depend on who joined first. *)
Lemma join_order_forgotten {U : UnorderedIteration} (a b : Session)
    (n1 n2 n3 n4 : Net) :
  (join (join new_ChatRoom a n1).1.1 b n2).1.1 =
  (join (join new_ChatRoom b n3).1.1 a n4).1.1.
Proof.
  rewrite !join_unfold. simpl. f_equal.
  apply leibniz_equiv. intros x. rewrite !elem_of_union. tauto.
Qed.

(** Hence no observation of a room's state designates its first member. *)
Lemma first_member_not_observable {U : UnorderedIteration}
    (observe : ChatRoom → option Session) :
  ¬ ∀ a b, a ≠ b →
      observe (join (join new_ChatRoom a empty_net).1.1 b empty_net).1.1
      = Some a.
Proof.
  intros H.
  pose proof (H 1%nat 2%nat ltac:(discriminate)) as H12.
  pose proof (H 2%nat 1%nat ltac:(discriminate)) as H21.
  rewrite (join_order_forgotten 1%nat 2%nat empty_net empty_net
             empty_net empty_net) in H12.
  rewrite H12 in H21. discriminate H21.
Qed.

(** Two admissible containers visit the same room in different orders. *)
Example iteration_order_not_fixed :
  @iteration elements_iteration (members_ (room_of [1; 2; 3]%nat))
  = [2; 3; 1]%nat
  ∧ @iteration reverse_iteration (members_ (room_of [1; 2; 3]%nat))
    = [1; 3; 2]%nat.
Proof. split; vm_compute; reflexivity. Qed.

(** ** The room registry *)

(** [log] appends to the console and touches nothing else. *)
Lemma log_unfold (evs : list event) (w : World) :
  log evs w = {| server := server w; net := net w; db := db w;
                 console := console w ++ evs |}.
Proof. reflexivity. Qed.

Lemma log_nil (w : World) : log [] w = w.
Proof. destruct w. unfold log. simpl. by rewrite app_nil_r. Qed.

(** A room with a member is kept, and no other entry is touched. *)
Lemma remove_empty_room_keeps (srv : ChatServer) (room_id k : Z)
    (room : ChatRoom) :
  rooms_ srv !! k = Some room → members_ room ≠ ∅ →
  rooms_ (remove_empty_room srv room_id).1 !! k = Some room.
Proof.
  intros Hk Hne. unfold remove_empty_room, member_count.
  destruct (rooms_ srv !! room_id) as [r|] eqn:E; [| done].
  destruct (Nat.eqb_spec (size (members_ r)) 0) as [Hz|Hz]; [| done].
  simpl. rewrite lookup_delete_ne; [done |].
  intros ->. rewrite Hk in E. injection E as ->.
  by apply size_empty_iff, leibniz_equiv in Hz.
Qed.

Lemma remove_empty_room_removes (srv : ChatServer) (room_id : Z)
    (room : ChatRoom) :
  rooms_ srv !! room_id = Some room → members_ room = ∅ →
  remove_empty_room srv room_id =
  (set_rooms (delete room_id) srv, [room_removed room_id]).
Proof.
  intros E Hm. unfold remove_empty_room, member_count. rewrite E, Hm.
  by rewrite size_empty.
Qed.

Section RegistryClaims.
Context {U : UnorderedIteration}.

(** Leaving as the only member through [leave_room]: no write happens
    and the entry is removed. *)
Lemma leave_room_last_member (cs : ChatSession) (w : World) (room : ChatRoom) :
  rooms_ (server w) !! room_id_ cs = Some room →
  members_ room ⊆ {[self_ cs]} →
  leave_room cs w =
  ({| server := set_rooms (delete (room_id_ cs)) (server w); net := net w;
      db := db w; console := console w ++ [room_removed (room_id_ cs)] |},
   Returned).
Proof.
  intros E Hm. unfold leave_room, on_room, get_or_create_room.
  rewrite E, leave_unfold. simpl.
  rewrite (subseteq_empty_difference_L _ _ Hm).
  rewrite broadcast_empty by done. simpl.
  erewrite remove_empty_room_removes;
    [| by apply lookup_insert_eq | done].
  unfold log, set_rooms, put_room, set_rooms. simpl.
  by rewrite delete_insert_eq.
Qed.

(** The same leave on the error path of [do_read]: the entry stays, with
    no member. *)
Lemma on_read_failure_last_member (cs : ChatSession) (w : World)
    (room : ChatRoom) (ec_message : string) :
  rooms_ (server w) !! room_id_ cs = Some room →
  members_ room ⊆ {[self_ cs]} →
  on_read cs (Failure ec_message) w =
  (cs, {| server := put_room (room_id_ cs) new_ChatRoom (server w);
          net := net w; db := db w; console := console w |}, Returned).
Proof.
  intros E Hm. unfold on_read, on_room, get_or_create_room.
  rewrite E, leave_unfold. simpl.
  rewrite (subseteq_empty_difference_L _ _ Hm).
  by rewrite broadcast_empty.
Qed.

(** Leaving through [leave_room] while sound members remain: the room
    stays registered with the remaining members. *)
Lemma leave_room_others_remain (cs : ChatSession) (w : World)
    (room : ChatRoom) :
  rooms_ (server w) !! room_id_ cs = Some room →
  members_ room ∖ {[self_ cs]} ≠ ∅ →
  (∀ m, m ∈ members_ room → m ∉ broken (net w)) →
  (leave_room cs w).2 = Returned
  ∧ rooms_ (server (leave_room cs w).1) !! room_id_ cs =
    Some {| members_ := members_ room ∖ {[self_ cs]} |}.
Proof.
  intros E Hne Hnet. unfold leave_room, on_room, get_or_create_room.
  rewrite E, leave_unfold. simpl.
  rewrite broadcast_healthy
    by (simpl; intros m Hm; apply Hnet; by apply elem_of_difference in Hm as [? _]).
  simpl. unfold remove_empty_room, member_count. simpl.
  rewrite lookup_insert_eq. simpl.
  destruct (Nat.eqb_spec (size (members_ room ∖ {[self_ cs]})) 0) as [Hz|Hz].
  - by apply size_empty_iff, leibniz_equiv in Hz.
  - simpl. split; [done | apply lookup_insert_eq].
Qed.

(** C1, amended. Leave and the host: a room records no host, so [leave]
    reassigns none: it erases the session from the membership and runs
    the broadcast of the leave notice over the members that remain; and
    when a session leaves through [leave_room] a room of which it is the
    only member, the room's entry is removed from the registry. *)
Theorem leave_erases_and_last_leave_room_removes (r : ChatRoom) (s : Session)
    (n : Net) (cs : ChatSession) (w : World) (room : ChatRoom)
    (Hroom : rooms_ (server w) !! room_id_ cs = Some room)
    (Hlast : members_ room ⊆ {[self_ cs]}) :
  (hostUserId r = None
   ∧ hostUserId (leave r s n).1.1 = None
   ∧ members_ (leave r s n).1.1 = members_ r ∖ {[s]}
   ∧ ((leave r s n).1.2, (leave r s n).2) =
     broadcast {| members_ := members_ r ∖ {[s]} |} leave_notice n)
  ∧ ((leave_room cs w).2 = Returned
     ∧ rooms_ (server (leave_room cs w).1) !! room_id_ cs = None).
Proof.
  split.
  - rewrite leave_unfold. simpl. by destruct (broadcast _ _ n).
  - rewrite (leave_room_last_member cs w room Hroom Hlast). simpl.
    split; [done | apply lookup_delete_eq].
Qed.
End RegistryClaims.

(** C1 at the room that session 4 entered alone as room 7, with any other
    room and session for the first part. *)
Lemma leave_erases_and_last_leave_room_removes_witness :
  let U := elements_iteration in
  let cs := (on_initial_data (connecting 4%nat stale_int "7,1") Success initial_world).1.1 in
  let w := (on_initial_data (connecting 4%nat stale_int "7,1") Success initial_world).1.2 in
  (rooms_ (server w) !! room_id_ cs = Some (room_of [4%nat])
   ∧ members_ (room_of [4%nat]) ⊆ {[self_ cs]})
  ∧ (leave_room cs w).2 = Returned
  ∧ rooms_ (server (leave_room cs w).1) !! room_id_ cs = None.
Proof.
  intros U cs w.
  assert (rooms_ (server w) !! room_id_ cs = Some (room_of [4%nat])) as Hroom
    by (vm_compute; reflexivity).
  assert (members_ (room_of [4%nat]) ⊆ {[self_ cs]}) as Hlast
    by (vm_compute; set_solver).
  split; [done |].
  exact (proj2 (leave_erases_and_last_leave_room_removes
                  (room_of [1; 2]%nat) 1%nat empty_net cs w (room_of [4%nat])
                  Hroom Hlast)).
Defined.

(** C1 fails on its failover clause: session 1 joins the empty room first
    and session 2 after it; when session 1 leaves, session 2 remains and the
    room has no host. *)
Lemma host_leaves_no_new_host :
  let U := elements_iteration in
  let r1 := (join new_ChatRoom 1%nat empty_net).1.1 in
  let r12 := (join r1 2%nat empty_net).1.1 in
  members_ (leave r12 1%nat empty_net).1.1 = {[2%nat]}
  ∧ ¬ host_reassigned U r12 1%nat empty_net.
Proof.
  intros U r1 r12.
  assert (members_ (leave r12 1%nat empty_net).1.1 = {[2%nat]}) as E
    by (vm_compute; reflexivity).
  split; [exact E |].
  unfold host_reassigned. rewrite E. intros H.
  destruct H as (h & _ & Hh); [| discriminate Hh].
  apply (non_empty_inhabited_L 2%nat), elem_of_singleton_2. reflexivity.
Qed.

(** C2 at its failing input: session 4 connects, sends "7,1" and so enters
    room 7 alone; then its read fails.  The handler of [do_read] returns and
    room 7 is still registered, with no member; [leave_room] at the same
    state removes it. *)
Theorem transport_error_leaves_empty_room (indeterminate : Z) :
  let U := elements_iteration in
  let '(cs, w, o) :=
    on_initial_data (connecting 4%nat indeterminate "7,1") Success
                    initial_world in
  let '(cs', w', o') := on_read cs (Failure "End of file") w in
  (o = Returned ∧ rooms_ (server w) !! 7 = Some (room_of [4%nat]))
  ∧ (o' = Returned ∧ rooms_ (server w') !! 7 = Some new_ChatRoom
     ∧ member_count new_ChatRoom = 0%nat)
  ∧ rooms_ (server (leave_room cs w).1) !! 7 = None.
Proof. vm_compute. repeat split; reflexivity. Qed.

(** ** check_message *)

Lemma check_message_dispatch (command params : string) (w : World) :
  find "?" command = None →
  check_message (command +:+ String "?" params) w =
  (log (dispatch command (parse_params params)).1 w,
   (dispatch command (parse_params params)).2).
Proof.
  intros H. unfold check_message.
  rewrite (find_app_delim _ _ _ H). unfold substr.
  rewrite substr_from_0, prefix_app, substr_from_app_S.
  by destruct (dispatch command (parse_params params)).
Qed.

Lemma check_message_frame (message : string) (w : World) :
  server (check_message message w).1 = server w
  ∧ net (check_message message w).1 = net w
  ∧ db (check_message message w).1 = db w.
Proof.
  unfold check_message. destruct (find "?" message); [| done].
  by destruct (dispatch _ _).
Qed.

(** C8. Malformed-message recovery: for every line without a ['?'],
    check_message appends to the error stream the one report "Invalid
    message format: " followed by the line, and returns to its caller
    without raising; server, network and database are as before, and
    nothing else is printed. *)
Theorem malformed_message_recovered (message : string) (w : World)
    (Hno : "?"%char ∉ String.list_ascii_of_string message) :
  check_message message w =
  ({| server := server w; net := net w; db := db w;
      console := console w
                 ++ [Cerr [Str "Invalid message format: "; Str message]] |},
   Returned)
  ∧ (check_message message w).2 = Returned
  ∧ console (check_message message w).1 =
    console w ++ [Cerr [Str "Invalid message format: "; Str message]]
  ∧ server (check_message message w).1 = server w
  ∧ net (check_message message w).1 = net w
  ∧ db (check_message message w).1 = db w.
Proof.
  apply find_None_iff in Hno.
  assert (check_message message w =
          ({| server := server w; net := net w; db := db w;
              console := console w
                ++ [Cerr [Str "Invalid message format: "; Str message]] |},
           Returned)) as E
    by (unfold check_message; by rewrite Hno).
  rewrite E. by repeat split.
Qed.

(** C8 at the line "hello" on a server that has printed nothing yet. *)
Lemma malformed_message_recovered_witness :
  ("?"%char ∉ String.list_ascii_of_string "hello")
  ∧ (check_message "hello" initial_world).2 = Returned
  ∧ console (check_message "hello" initial_world).1 =
    [Cerr [Str "Invalid message format: "; Str "hello"]].
Proof.
  assert ("?"%char ∉ String.list_ascii_of_string "hello") as Hno
    by (apply find_None_iff; reflexivity).
  split; [exact Hno |].
  pose proof (malformed_message_recovered "hello" initial_world Hno)
    as (_ & Ho & Hc & _).
  by split.
Defined.

(** A command that starts like a recognized one and is none of them ends
    at the [break] of its case: nothing is reported. *)
Lemma dispatch_silent (c0 : ascii) (rest : string) (m : gmap string string) :
  c0 ∈ switch_cases → String c0 rest ∉ recognized →
  dispatch (String c0 rest) m = ([], Returned).
Proof.
  intros Hc Hn.
  assert (∀ s, s ∈ recognized → String.eqb (String c0 rest) s = false) as Hf.
  { intros s Hs. apply String.eqb_neq. by intros <-. }
  unfold dispatch.
  rewrite !Hf by (unfold recognized; in_list). simpl.
  unfold switch_cases in Hc.
  repeat (apply elem_of_cons in Hc as [->|Hc]; [reflexivity |]).
  by apply elem_of_nil in Hc.
Qed.

(** Every other first character reaches [default]. *)
Lemma dispatch_default (c0 : ascii) (rest : string) (m : gmap string string) :
  c0 ∉ switch_cases →
  dispatch (String c0 rest) m =
  ([Cerr [Str "Unknown command: "; Str (String c0 rest)]], Returned).
Proof.
  intros Hc. unfold dispatch.
  assert (∀ a, a ∈ switch_cases → Ascii.eqb c0 a = false) as Hf.
  { intros a Ha. apply Ascii.eqb_neq. by intros <-. }
  rewrite !Hf by (unfold switch_cases; in_list). done.
Qed.

(** C3 at its failing input: "create_x" is not a recognized command, and
    check_message returns on it without reporting anything. *)
Theorem create_x_not_reported (w : World) :
  ("create_x" ∉ recognized)
  ∧ check_message "create_x?a:b" w = (w, Returned)
  ∧ check_message "xreate_x?a:b" w =
    (log [Cerr [Str "Unknown command: "; Str "xreate_x"]] w, Returned).
Proof.
  split; [unfold recognized; not_in_list |].
  split.
  - rewrite <- (log_nil w) at 2. reflexivity.
  - reflexivity.
Qed.

(** "invite_user" shares the case of the commands in ['c'] and starts with
    ['i']: it reaches [default]. *)
Lemma invite_user_unknown (m : gmap string string) :
  dispatch "invite_user" m =
  ([Cerr [Str "Unknown command: "; Str "invite_user"]], Returned).
Proof. reflexivity. Qed.

Lemma subscript_absent (m : gmap string string) (key : string) :
  m !! key = None →
  subscript m key = EmptyString
  ∧ stoi (subscript m key) = inr invalid_argument.
Proof. intros H. unfold subscript. rewrite H. by split. Qed.

(** C7, amended. Missing and ill-formed parameters: check_message has no
    missing-parameter error.  An absent key reads as the empty string.  For
    every recognized command that the switch reaches (all but
    "invite_user"): when one of the values it converts with [stoi] is
    absent or has no leading integer, or is out of the range of [int], the
    first such conversion, in the order room_id, user_id, target_user_id,
    raises [invalid_argument] or [out_of_range] out of check_message before
    anything is printed; otherwise the handler appends its one line, given
    below for each command, to the output stream and returns, with the
    empty string for each absent string-valued key. *)
Theorem missing_parameter_behaviour (params : string) (w : World) :
  let m := parse_params params in
  let value (key : string) : string := default EmptyString (m !! key) in
  let prints (l : list piece) : World * outcome :=
    ({| server := server w; net := net w; db := db w;
        console := console w ++ [Cout l] |}, Returned) in
  let converts (key : string) (k : Z → World * outcome) : World * outcome :=
    match stoi (value key) with
    | inl v => k v
    | inr e => (w, Thrown e)
    end in
  (∀ key, m !! key = None →
     value key = EmptyString ∧ stoi (value key) = inr invalid_argument)
  ∧ check_message ("create_user?" +:+ params) w =
    prints [Str "Creating user with id: "; Str (value "id");
            Str " and password: "; Str (value "password")]
  ∧ check_message ("login_user?" +:+ params) w =
    prints [Str "Logging in user with id: "; Str (value "id");
            Str " and password: "; Str (value "password")]
  ∧ check_message ("create_room?" +:+ params) w =
    prints [Str "Creating room or inviting with title: ";
            Str (value "title")]
  ∧ check_message ("join_room?" +:+ params) w =
    converts "room_id" (λ room_id,
      prints [Str "Joining room with id: "; Int room_id])
  ∧ check_message ("send_text?" +:+ params) w =
    converts "room_id" (λ room_id, converts "user_id" (λ user_id,
      prints [Str "User "; Int user_id; Str " is sending message: ";
              Str (value "text"); Str " in room "; Int room_id]))
  ∧ check_message ("exit_room?" +:+ params) w =
    converts "room_id" (λ room_id, converts "user_id" (λ user_id,
      prints [Str "User "; Int user_id; Str " is exiting room ";
              Int room_id]))
  ∧ check_message ("kick_user?" +:+ params) w =
    converts "room_id" (λ room_id, converts "user_id" (λ user_id,
    converts "target_user_id" (λ target_user_id,
      prints [Str "User "; Int user_id; Str " is kicking user ";
              Int target_user_id; Str " from room "; Int room_id])))
  ∧ check_message ("grant_host?" +:+ params) w =
    converts "room_id" (λ room_id, converts "user_id" (λ user_id,
    converts "target_user_id" (λ target_user_id,
      prints [Str "User "; Int user_id;
              Str " is granting host role to user "; Int target_user_id;
              Str " in room "; Int room_id]))).
Proof.
  intros m value prints converts.
  split; [intros key H; subst value; simpl; by rewrite H |].
  assert (∀ command,
            find "?" command = None →
            check_message (command +:+ String "?" params) w =
            (log (dispatch command m).1 w, (dispatch command m).2)) as Hd
    by (intros command H; by apply check_message_dispatch).
  repeat split.
  all: match goal with
       | |- check_message (?line +:+ ?p) _ = _ =>
           let c := eval vm_compute in (prefix line (String.length line - 1)) in
           change (line +:+ p) with (c +:+ String "?" p);
           rewrite (Hd c) by reflexivity
       end.
  all: subst prints converts value; simpl; unfold with_stoi, subscript.
  all: repeat match goal with
              | |- context [stoi ?s] => destruct (stoi s); simpl
              end.
  all: by rewrite ?log_nil, ?log_unfold.
Qed.

(** C7 at "join_room" without its "room_id": the conversion of the absent
    value raises and nothing is printed. *)
Lemma missing_parameter_behaviour_witness :
  parse_params "id:1" !! "room_id" = None
  ∧ check_message "join_room?id:1" initial_world =
    (initial_world, Thrown invalid_argument).
Proof.
  split; [vm_compute; reflexivity |].
  pose proof (missing_parameter_behaviour "id:1" initial_world)
    as (_ & _ & _ & _ & Hjoin & _).
  exact Hjoin.
Defined.

(** C7 fails on its first clause: "create_user" without its "id" does not
    fail; it prints its line with an empty id and returns. *)
Lemma create_user_without_id_proceeds :
  let res := check_message "create_user?password:pw" initial_world in
  (parse_params "password:pw" !! "id" = None
   ∧ res.2 = Returned
   ∧ console res.1 =
     [Cout [Str "Creating user with id: "; Str "";
            Str " and password: "; Str "pw"]])
  ∧ ¬ fails res.
Proof.
  intros res.
  assert (res.2 = Returned
          ∧ console res.1 =
            [Cout [Str "Creating user with id: "; Str "";
                   Str " and password: "; Str "pw"]]) as [Ho Hc]
    by (split; vm_compute; reflexivity).
  split; [split; [vm_compute; reflexivity | by split] |].
  intros [H | (l & H)]; [done |].
  rewrite Hc in H. apply list_elem_of_singleton in H. discriminate H.
Qed.

(** ** Persistence of messages *)

Lemma save_message_to_db_success (q : Sqlite) (room_id user_id : Z)
    (message : string) (d : Database) :
  open_ok q = true → prepare_ok q = true → step_ok q = true →
  save_message_to_db q room_id user_id message d =
  ({| talks := talks d ++ [saved_row q d room_id user_id message];
      talks_seq := talks_seq d + 1 |}, []).
Proof. intros Ho Hp Hs. unfold save_message_to_db. by rewrite Ho, Hp, Hs. Qed.

(** A failing sqlite call is reported and inserts nothing. *)
Lemma save_message_to_db_failure (q : Sqlite) (room_id user_id : Z)
    (message : string) (d : Database) :
  open_ok q && prepare_ok q && step_ok q = false →
  (save_message_to_db q room_id user_id message d).1 = d
  ∧ ∃ l, (save_message_to_db q room_id user_id message d).2 = [Cerr l].
Proof.
  unfold save_message_to_db.
  destruct (open_ok q), (prepare_ok q), (step_ok q); simpl; try done; eauto.
Qed.

Section DatabaseFrame.
Context {U : UnorderedIteration}.

Lemma on_room_db f (room_id : Z) (session : Session) (w : World) :
  db (on_room f room_id session w).1 = db w.
Proof.
  unfold on_room. destruct (get_or_create_room _ _) as [srv room].
  by destruct (f room session (net w)) as [[room' n] o].
Qed.

(** The handler of [do_read] of the current version never touches the
    database. *)
Lemma on_read_db (cs : ChatSession) (c : completion) (w : World) :
  db (on_read cs c w).1.2 = db w.
Proof.
  unfold on_read. destruct c as [|m].
  - destruct (line_length (buffer_ cs)) as [length|]; [| done].
    match goal with
    | |- context [on_room ?f ?i ?s w] =>
        pose proof (on_room_db f i s w) as H;
        destruct (on_room f i s w) as [w' o]
    end.
    exact H.
  - pose proof (on_room_db leave (room_id_ cs) (self_ cs) w) as H.
    destruct (on_room leave (room_id_ cs) (self_ cs) w) as [w' o].
    exact H.
Qed.

(** C4, amended. Persistence of a line: in the single-room server, for
    every line read from a connection, when the broadcast of the line
    returns and the sqlite calls succeed, exactly one row is appended to
    the talks relation; its room_id and user_id are those of the session
    (the fixed 1 and 1 of [do_accept]) and its text is the whole line up
    to its first zero byte, not the parameters of a command in the line.
    In the current server neither check_message, on "send_text" or any
    other line, nor the handler of [do_read] appends a row. *)
Theorem line_saved_once_in_single_room (q : Sqlite)
    (cs : SingleRoom.ChatSession) (w : SingleRoom.World) (length : nat)
    (Hline : line_length (SingleRoom.buffer_ cs) = Some length)
    (Hnet : ∀ m, m ∈ members_ (SingleRoom.room_ (SingleRoom.server w)) →
                 m ∉ broken (SingleRoom.net w))
    (Hq : open_ok q = true ∧ prepare_ok q = true ∧ step_ok q = true) :
  let message := substr (SingleRoom.buffer_ cs) 0 (length - 1) in
  let res := SingleRoom.on_read q cs Success w in
  (res.2 = Returned
   ∧ talks (SingleRoom.db res.1.2) =
     talks (SingleRoom.db w) ++
     [saved_row q (SingleRoom.db w) (SingleRoom.room_id_ cs)
                (SingleRoom.user_id_ cs) message])
  ∧ (∀ session, SingleRoom.room_id_ (SingleRoom.accept session) = 1
                ∧ SingleRoom.user_id_ (SingleRoom.accept session) = 1)
  ∧ (∀ line w3, db (check_message line w3).1 = db w3)
  ∧ (∀ cs3 c w3, db (on_read cs3 c w3).1.2 = db w3).
Proof.
  intros message res. destruct Hq as (Ho & Hp & Hs).
  split; [| split; [done | split]].
  - subst res. unfold SingleRoom.on_read. rewrite Hline.
    rewrite broadcast_healthy by done. simpl.
    rewrite save_message_to_db_success by done. done.
  - intros line w3. apply check_message_frame.
  - apply on_read_db.
Qed.
End DatabaseFrame.

(** C4 in the single-room server at a "send_text" line that names room 2
    and user 3: the one row saved holds room 1, user 1 and the whole
    line. *)
Lemma line_saved_once_in_single_room_witness :
  let U := elements_iteration in
  let cs := single_room_session "send_text?room_id:2/user_id:3/text:hi" in
  let w := single_room_world in
  (line_length (SingleRoom.buffer_ cs) = Some 38%nat
   ∧ (∀ m, m ∈ members_ (SingleRoom.room_ (SingleRoom.server w)) →
           m ∉ broken (SingleRoom.net w))
   ∧ (open_ok sound_sqlite = true ∧ prepare_ok sound_sqlite = true
      ∧ step_ok sound_sqlite = true))
  ∧ talks (SingleRoom.db (SingleRoom.on_read sound_sqlite cs Success w).1.2) =
    [{| talk_id := 1; talk_room_id := 1; talk_user_id := 1;
        talk_text := "send_text?room_id:2/user_id:3/text:hi";
        published_date := now sound_sqlite |}].
Proof.
  intros U cs w.
  assert (line_length (SingleRoom.buffer_ cs) = Some 38%nat) as Hline
    by reflexivity.
  assert (∀ m, m ∈ members_ (SingleRoom.room_ (SingleRoom.server w)) →
               m ∉ broken (SingleRoom.net w)) as Hnet
    by (intros m _; apply not_elem_of_empty).
  assert (open_ok sound_sqlite = true ∧ prepare_ok sound_sqlite = true
          ∧ step_ok sound_sqlite = true) as Hq by (repeat split; reflexivity).
  split; [done |].
  exact (proj2 (proj1 (line_saved_once_in_single_room sound_sqlite cs w 38%nat
                         Hline Hnet Hq))).
Defined.

(** C4 fails in the current server: check_message accepts
    "send_text?room_id:1/user_id:1/text:hi", prints its line and returns,
    and no row has been appended to talks; nor does the handler of
    [do_read] append one when session 4 of room 7 sends that line. *)
Lemma send_text_appends_no_row :
  let U := elements_iteration in
  let line := "send_text?room_id:1/user_id:1/text:hi" in
  let res := check_message line initial_world in
  let w7 := (on_initial_data (connecting 4%nat stale_int "7,1") Success initial_world).1.2 in
  let cs7 := {| self_ := 4%nat; room_id_ := 7; buffer_ := line +:+ newline |} in
  (res.2 = Returned
   ∧ console res.1 =
     [Cout [Str "User "; Int 1; Str " is sending message: "; Str "hi";
            Str " in room "; Int 1]])
  ∧ (¬ ∃ row, talks (db res.1) = talks (db initial_world) ++ [row])
  ∧ (on_read cs7 Success w7).2 = Returned
  ∧ ¬ ∃ row, talks (db (on_read cs7 Success w7).1.2) = talks (db w7) ++ [row].
Proof.
  intros U line res w7 cs7.
  split; [split; vm_compute; reflexivity |].
  split; [| split; [vm_compute; reflexivity |]].
  - intros [row H]. vm_compute in H. discriminate H.
  - intros [row H]. rewrite on_read_db in H.
    apply (f_equal List.length) in H. rewrite length_app in H. simpl in H. lia.
Qed.

(** * Further properties of the code *)

(** ** Splitting and joining *)

Lemma find_app_None (c : ascii) (s1 s2 : string) :
  find c s1 = None → find c s2 = None → find c (s1 +:+ s2) = None.
Proof.
  intros H1 H2. induction s1 as [|a s1 IH]; simpl in *; [done |].
  destruct (Ascii.eqb a c); [done |].
  destruct (find c s1); [done |]. by rewrite IH.
Qed.

Lemma find_Some_split (c : ascii) (s : string) (i : nat) :
  find c s = Some i →
  s = prefix s i +:+ String c (substr_from s (S i))
  ∧ find c (prefix s i) = None.
Proof.
  revert i. induction s as [|a s IH]; intros i H; simpl in H; [done |].
  destruct (Ascii.eqb_spec a c) as [->|Hne].
  - injection H as <-. simpl. split; [by destruct s | done].
  - destruct (find c s) as [j|] eqn:E; [| done].
    injection H as <-. destruct (IH j eq_refl) as [Hs Hp]. simpl.
    split; [exact (f_equal (String a) Hs) |].
    destruct (Ascii.eqb_spec a c); [done |]. by rewrite Hp.
Qed.

Lemma split_on_whole (c : ascii) (s : string) :
  find c s = None → split_on c s = [s].
Proof.
  induction s as [|a s IH]; simpl; [done |].
  destruct (Ascii.eqb a c); [done |].
  destruct (find c s); [done |]. intros _. by rewrite IH.
Qed.

Lemma split_on_delim (c : ascii) (s1 s2 : string) :
  find c s1 = None →
  split_on c (s1 +:+ String c s2) = s1 :: split_on c s2.
Proof.
  induction s1 as [|a s1 IH]; simpl.
  - intros _. by rewrite Ascii.eqb_refl.
  - destruct (Ascii.eqb a c); [done |].
    destruct (find c s1); [done |]. intros _. by rewrite IH.
Qed.

Lemma split_on_join (c : ascii) (segs : list string) :
  segs ≠ [] → Forall (λ seg, find c seg = None) segs →
  split_on c (join_with c segs) = segs.
Proof.
  induction segs as [|seg segs IH]; [done |].
  intros _ H. apply Forall_cons in H as [Hseg Hsegs].
  destruct segs as [|seg' segs]; [by apply split_on_whole |].
  change (join_with c (seg :: seg' :: segs))
    with (seg +:+ String c (join_with c (seg' :: segs))).
  rewrite split_on_delim by done. f_equal. by apply IH.
Qed.

(** Parsing a section built from segments stores the segments in order. *)
Lemma parse_params_join (segs : list string) :
  Forall (λ seg, find "/" seg = None) segs →
  parse_params (join_with "/" segs) = foldl store_pair ∅ segs.
Proof.
  intros H. rewrite parse_params_foldl.
  destruct segs as [|seg segs]; [done |]. by rewrite split_on_join.
Qed.

Lemma token_pair_encode (kv : string * string) :
  find ":" kv.1 = None → token_pair (encode_pair kv) = Some kv.
Proof.
  intros H. unfold token_pair, encode_pair.
  rewrite (find_app_delim _ _ _ H), prefix_app.
  replace (S (String.length kv.1)) with (String.length kv.1 + 1)%nat by lia.
  rewrite substr_from_app_S. by destruct kv.
Qed.

Lemma foldl_store_pair_encode (kvs : list (string * string))
    (m : gmap string string) :
  Forall carried kvs →
  foldl store_pair m (encode_pair <$> kvs) =
  foldl (λ m kv, <[kv.1 := kv.2]> m) m kvs.
Proof.
  revert m. induction kvs as [|kv kvs IH]; intros m H; [done |].
  apply Forall_cons in H as [(Hk & _ & _) Hkvs]. simpl.
  rewrite store_pair_token, token_pair_encode by done.
  destruct kv as [k v]. by apply IH.
Qed.

Lemma foldl_store_pair_filter (segs : list string) (m : gmap string string) :
  foldl store_pair m (filter (λ seg, has_colon seg = true) segs) =
  foldl store_pair m segs.
Proof.
  revert m. induction segs as [|seg segs IH]; intros m; [done |].
  rewrite filter_cons. simpl. case_decide as Hc; simpl; [apply IH |].
  assert (store_pair m seg = m) as ->; [| apply IH].
  unfold has_colon in Hc. unfold store_pair.
  by destruct (find ":" seg).
Qed.

(** X1. Round trip of the parameter grammar: for every list of pairs whose
    keys hold neither [':'] nor ['/'] and whose values hold no ['/'],
    parsing the section [k1:v1/.../kn:vn] gives the map obtained by
    assigning the pairs in order; a value may hold [':']. *)
Theorem parse_params_of_pairs (kvs : list (string * string))
    (Hkvs : Forall carried kvs) :
  parse_params (join_with "/" (encode_pair <$> kvs)) = assigned kvs.
Proof.
  rewrite parse_params_join.
  - by apply foldl_store_pair_encode.
  - apply Forall_fmap. eapply Forall_impl; [exact Hkvs |].
    intros kv (_ & Hk & Hv). simpl. unfold encode_pair.
    apply find_app_None; [done |]. simpl. by rewrite Hv.
Qed.

(** X1 at the pairs [url:a:b], [k:1], [url:c]. *)
Lemma parse_params_of_pairs_witness :
  Forall carried [("url", "a:b"); ("k", "1"); ("url", "c")]
  ∧ parse_params "url:a:b/k:1/url:c" =
    assigned [("url", "a:b"); ("k", "1"); ("url", "c")].
Proof.
  assert (Forall carried [("url", "a:b"); ("k", "1"); ("url", "c")]) as H
    by (repeat constructor).
  split; [exact H |].
  exact (parse_params_of_pairs _ H).
Defined.

(** X2. Tokens without a colon: in a section built from segments without
    ['/'], the segments that hold no [':'] (empty ones included) do not
    matter: parsing the section gives the same map as parsing it with those
    segments removed. *)
Theorem parse_params_skips_tokens_without_colon (segs : list string)
    (Hsegs : Forall (λ seg, find "/" seg = None) segs) :
  parse_params (join_with "/" segs) =
  parse_params (join_with "/" (filter (λ seg, has_colon seg = true) segs)).
Proof.
  rewrite !parse_params_join; [by rewrite foldl_store_pair_filter | | done].
  rewrite Forall_forall in Hsegs |- *. intros seg Hseg.
  apply list_elem_of_filter in Hseg as [_ Hseg]. by apply Hsegs.
Qed.

(** X2 at the segments [a:1], [junk], the empty segment and [b:2]. *)
Lemma parse_params_skips_tokens_without_colon_witness :
  Forall (λ seg, find "/" seg = None) ["a:1"; "junk"; ""; "b:2"]
  ∧ parse_params "a:1/junk//b:2" = parse_params "a:1/b:2".
Proof.
  assert (Forall (λ seg, find "/" seg = None) ["a:1"; "junk"; ""; "b:2"]) as H
    by (repeat constructor).
  split; [exact H |].
  exact (parse_params_skips_tokens_without_colon _ H).
Defined.

(** ** The last occurrence of a key *)

Lemma find_app_None_inv (c : ascii) (s1 s2 : string) :
  find c (s1 +:+ s2) = None → find c s1 = None ∧ find c s2 = None.
Proof.
  induction s1 as [|a s1 IH]; simpl; [done |].
  destruct (Ascii.eqb a c); [done |].
  destruct (find c (s1 +:+ s2)) eqn:E; [done |]. intros _.
  destruct (IH eq_refl) as [-> ->]. done.
Qed.

Lemma split_on_no_delim (c : ascii) (s : string) :
  Forall (λ seg, find c seg = None) (split_on c s).
Proof.
  induction s as [|a s IH]; simpl; [by constructor |].
  destruct (Ascii.eqb a c) eqn:Ea; [by constructor |].
  pose proof (split_on_nonempty c s) as Hne.
  destruct (split_on c s) as [|seg segs]; [done |].
  apply Forall_cons in IH as [Hseg Hsegs]. constructor; [| done].
  simpl. by rewrite Ea, Hseg.
Qed.

Lemma join_split_on (c : ascii) (s : string) :
  join_with c (split_on c s) = s.
Proof.
  induction s as [|a s IH]; simpl; [done |].
  pose proof (split_on_nonempty c s) as Hne.
  destruct (Ascii.eqb_spec a c) as [->|Hac];
    destruct (split_on c s) as [|seg segs]; try done.
  - simpl in *. by rewrite IH.
  - destruct segs as [|seg' segs]; simpl in *; by rewrite <- IH.
Qed.

Lemma well_formed_find (t : token) :
  well_formed t →
  find "/" (render t) = None
  ∧ match t with
    | Junk text => find ":" text = None
    | Pair key value => find ":" key = None
    end.
Proof.
  destruct t as [text|key value]; simpl; unfold chars.
  - intros [Hc Hs]. by rewrite !find_None_iff.
  - intros (Hc & Hk & Hv). rewrite <- !find_None_iff in *.
    split; [| done]. apply find_app_None; [done |]. simpl. by rewrite Hv.
Qed.

Lemma store_pair_render (m : gmap string string) (t : token) :
  well_formed t →
  store_pair m (render t) =
  match t with Junk _ => m | Pair key value => <[key := value]> m end.
Proof.
  intros H. apply well_formed_find in H as [_ H].
  destruct t as [text|key value]; simpl.
  - unfold store_pair. by rewrite H.
  - change (key +:+ String ":" value) with (encode_pair (key, value)).
    by rewrite store_pair_token, (token_pair_encode (key, value) H).
Qed.

Lemma parse_params_render (toks : list token) :
  Forall well_formed toks →
  parse_params (join_with "/" (render <$> toks)) =
  foldl store_pair ∅ (render <$> toks).
Proof.
  intros H. apply parse_params_join, Forall_fmap.
  eapply Forall_impl; [exact H |]. intros t Ht. simpl.
  by apply well_formed_find in Ht as [? _].
Qed.

(** Tokens that do not name [key] leave its binding alone. *)
Lemma foldl_render_other (toks : list token) (m : gmap string string)
    (key : string) :
  Forall well_formed toks → (∀ value, Pair key value ∉ toks) →
  foldl store_pair m (render <$> toks) !! key = m !! key.
Proof.
  revert m. induction toks as [|t toks IH]; intros m Hwf Hk; [done |].
  apply Forall_cons in Hwf as [Ht Hwf]. simpl.
  rewrite IH, store_pair_render; [| done | done |].
  - destruct t as [text|k v]; [done |].
    rewrite lookup_insert_ne; [done |].
    intros ->. apply (Hk v). left.
  - intros value Hin. apply (Hk value). by right.
Qed.

(** Every string is a parameter section of well-formed tokens. *)
Lemma section_of_tokens (params : string) :
  ∃ toks, Forall well_formed toks
          ∧ join_with "/" (render <$> toks) = params.
Proof.
  set (classify := λ seg,
         match find ":" seg with
         | Some sep => Pair (prefix seg sep) (substr_from seg (S sep))
         | None => Junk seg
         end).
  assert (∀ seg, find "/" seg = None →
                 well_formed (classify seg) ∧ render (classify seg) = seg)
    as Hclass.
  { intros seg Hs. unfold classify.
    destruct (find ":" seg) as [sep|] eqn:E; simpl; unfold chars.
    - destruct (find_Some_split _ _ _ E) as [Hseg Hp].
      split; [| by rewrite <- Hseg].
      rewrite Hseg in Hs. apply find_app_None_inv in Hs as [Hs1 Hs2].
      simpl in Hs2. destruct (find "/" (substr_from seg (S sep))) eqn:E2;
        [done |].
      by rewrite <- !find_None_iff.
    - by rewrite <- !find_None_iff. }
  exists (classify <$> split_on "/" params).
  pose proof (split_on_no_delim "/" params) as Hsegs.
  split.
  - apply Forall_fmap. eapply Forall_impl; [exact Hsegs |].
    intros seg Hs. simpl. by apply Hclass.
  - rewrite <- (join_split_on "/" params) at 2. f_equal.
    rewrite <- list_fmap_compose.
    rewrite <- (list_fmap_id (split_on "/" params)) at 2.
    apply Forall_fmap_ext_1. eapply Forall_impl; [exact Hsegs |].
    intros seg Hs. simpl. by apply Hclass.
Qed.

(** C9. Repeated-key overwrite.  Every parameter section is a sequence of
    tokens separated by ['/'], each a pair [key:value] (split at its first
    [':']) or text without a [':'].  Whatever the tokens are, when a pair
    with key [key] occurs and no later pair has that key, the parsed map
    binds [key] to the value of that pair, the last occurrence, whatever
    pairs with the same key come before it; and a key that no pair names
    is not bound. *)
Theorem parse_params_last_wins :
  (∀ params, ∃ toks, Forall well_formed toks
                     ∧ join_with "/" (render <$> toks) = params)
  ∧ (∀ before after key value,
       Forall well_formed (before ++ Pair key value :: after) →
       (∀ later, Pair key later ∉ after) →
       parse_params
         (join_with "/" (render <$> (before ++ Pair key value :: after)))
       !! key = Some value)
  ∧ (∀ toks key,
       Forall well_formed toks → (∀ value, Pair key value ∉ toks) →
       parse_params (join_with "/" (render <$> toks)) !! key = None).
Proof.
  split; [exact section_of_tokens |]. split.
  - intros before after key value Hwf Hlast.
    rewrite parse_params_render by done.
    apply Forall_app in Hwf as [Hb Ha].
    apply Forall_cons in Ha as [Hp Ha].
    rewrite fmap_app, foldl_app, fmap_cons.
    change (foldl store_pair ?m (?x :: ?l))
      with (foldl store_pair (store_pair m x) l).
    rewrite foldl_render_other, store_pair_render by done.
    apply lookup_insert_eq.
  - intros toks key Hwf Hk.
    rewrite parse_params_render, foldl_render_other by done.
    apply lookup_empty.
Qed.

(** The section "k:old/x:1/junk/k:new": the last pair of "k" wins over the
    first, and "junk" binds nothing. *)
Example parse_params_last_wins_example :
  join_with "/" (render <$> [Pair "k" "old"; Pair "x" "1"; Junk "junk";
                             Pair "k" "new"])
  = "k:old/x:1/junk/k:new"
  ∧ parse_params "k:old/x:1/junk/k:new" = {["k" := "new"; "x" := "1"]}.
Proof. split; vm_compute; reflexivity. Qed.

(** ** Numeric parameters *)

Lemma stoi_unfold (str : string) :
  stoi str =
  match digits (sign_split (skip_space str)).2 with
  | [] => inr invalid_argument
  | ds =>
      let v := if (sign_split (skip_space str)).1
               then - digits_value ds else digits_value ds in
      if (INT_MIN <=? v) && (v <=? INT_MAX) then inl v else inr out_of_range
  end.
Proof.
  unfold stoi, sign_split.
  destruct (skip_space str) as [|a s']; [done |].
  by destruct a as [[] [] [] [] [] [] [] []].
Qed.

Lemma digits_app (body rest : string) :
  digits rest = [] → digits (body +:+ rest) = digits body.
Proof.
  intros H. induction body as [|a body IH]; simpl; [done |].
  by rewrite IH.
Qed.

Lemma skip_space_app (s rest : string) :
  skip_space s ≠ EmptyString →
  skip_space (s +:+ rest) = skip_space s +:+ rest.
Proof.
  induction s as [|a s IH]; simpl; [done |].
  destruct (isspace a); [exact IH | done].
Qed.

Lemma sign_split_app (s rest : string) :
  s ≠ EmptyString →
  sign_split (s +:+ rest) = ((sign_split s).1, (sign_split s).2 +:+ rest).
Proof.
  destruct s as [|a s']; [done |]. intros _.
  by destruct a as [[] [] [] [] [] [] [] []].
Qed.

(** X3. What [stoi] accepts: when [stoi] converts a string, the value is
    within the range of [int], and the same string followed by any text that
    does not start with a digit converts to the same value. *)
Theorem stoi_ignores_trailing_text (s rest : string) (v : Z)
    (Hs : stoi s = inl v) (Hrest : digits rest = []) :
  stoi (s +:+ rest) = inl v ∧ INT_MIN ≤ v ≤ INT_MAX.
Proof.
  assert (skip_space s ≠ EmptyString) as Hne.
  { intros E. rewrite stoi_unfold, E in Hs. discriminate Hs. }
  split.
  - rewrite <- Hs, !stoi_unfold, skip_space_app, sign_split_app by done.
    simpl. by rewrite digits_app.
  - rewrite stoi_unfold in Hs.
    destruct (digits _) as [|d ds]; [done |]. simpl in Hs.
    match type of Hs with
    | (if ?b then _ else _) = _ => destruct b eqn:Hb; [| done]
    end.
    injection Hs as <-. apply andb_prop in Hb as [H1 H2].
    split; [by apply Z.leb_le | by apply Z.leb_le].
Qed.

(** X3 at " -12" followed by "abc". *)
Lemma stoi_ignores_trailing_text_witness :
  (stoi " -12" = inl (-12) ∧ digits "abc" = [])
  ∧ stoi " -12abc" = inl (-12).
Proof.
  assert (stoi " -12" = inl (-12)) as Hs by reflexivity.
  assert (digits "abc" = []) as Hrest by reflexivity.
  split; [done |].
  exact (proj1 (stoi_ignores_trailing_text " -12" "abc" (-12) Hs Hrest)).
Defined.

(** ** Dispatch *)

(** X4. Unrecognized commands: for every line whose text before the first
    ['?'] is not one of the nine commands, check_message returns without
    raising and prints nothing on the output stream; to the error stream it
    appends "Empty command received." for an empty command, nothing at all
    for a command that starts with one of c, l, j, s, e, k, g, and "Unknown
    command: " with the command otherwise; server, network and database
    are as before. *)
Theorem unrecognized_command_outcome (command params : string) (w : World)
    (Hq : "?"%char ∉ String.list_ascii_of_string command)
    (Hn : command ∉ recognized) :
  check_message (command +:+ String "?" params) w =
  ({| server := server w; net := net w; db := db w;
      console :=
        console w ++
        match command with
        | EmptyString => [Cerr [Str "Empty command received."]]
        | String c0 _ =>
            if bool_decide (c0 ∈ ["c"; "l"; "j"; "s"; "e"; "k"; "g"]%char)
            then []
            else [Cerr [Str "Unknown command: "; Str command]]
        end |}, Returned).
Proof.
  apply find_None_iff in Hq.
  rewrite check_message_dispatch, log_unfold by done.
  destruct command as [|c0 rest]; [done |].
  case_bool_decide as Hc.
  - by rewrite dispatch_silent.
  - by rewrite dispatch_default.
Qed.

(** X4 at "create_x?a:b" and at "xreate_x?a:b", on a server that has
    printed nothing yet. *)
Lemma unrecognized_command_outcome_witness :
  (("?"%char ∉ String.list_ascii_of_string "create_x")
   ∧ "create_x" ∉ recognized)
  ∧ console (check_message "create_x?a:b" initial_world).1 = []
  ∧ (check_message "create_x?a:b" initial_world).2 = Returned.
Proof.
  assert ("?"%char ∉ String.list_ascii_of_string "create_x") as Hq
    by (apply find_None_iff; reflexivity).
  assert ("create_x" ∉ recognized) as Hn by (unfold recognized; not_in_list).
  split; [done |].
  pose proof (unrecognized_command_outcome "create_x" "a:b" initial_world
                Hq Hn) as H.
  change ("create_x" +:+ String "?" "a:b") with "create_x?a:b" in H.
  rewrite H. by split.
Defined.

(** X5. "invite_user" is never handled: whatever its parameters,
    check_message appends "Unknown command: invite_user" to the error
    stream, prints nothing else and returns, with server, network and
    database as before; the branch that names it sits under [case 'c']. *)
Theorem invite_user_reported_unknown (params : string) (w : World) :
  check_message ("invite_user?" +:+ params) w =
  ({| server := server w; net := net w; db := db w;
      console := console w
                 ++ [Cerr [Str "Unknown command: "; Str "invite_user"]] |},
   Returned).
Proof.
  change ("invite_user?" +:+ params)
    with ("invite_user" +:+ String "?" params).
  by rewrite check_message_dispatch.
Qed.

(** X6. The room id of "join_room": when the value of [room_id] holds no
    ['/'] and [stoi] converts it to [z], check_message prints the join of
    room [z] and returns; by X3 white space before the number and any text
    after it are accepted. *)
Theorem join_room_reads_leading_integer (v : string) (z : Z) (w : World)
    (Hv : find "/" v = None) (Hz : stoi v = inl z) :
  check_message ("join_room?room_id:" +:+ v) w =
  (log [Cout [Str "Joining room with id: "; Int z]] w, Returned).
Proof.
  change ("join_room?room_id:" +:+ v)
    with ("join_room" +:+ String "?" ("room_id:" +:+ v)).
  rewrite check_message_dispatch by reflexivity.
  rewrite parse_params_foldl, split_on_whole
    by (by apply (find_app_None "/" "room_id:" v)).
  assert (store_pair ∅ ("room_id:" +:+ v) = {["room_id" := v]}) as E.
  { unfold store_pair. simpl. by destruct v. }
  simpl foldl. rewrite E. simpl. unfold with_stoi, subscript.
  rewrite lookup_singleton_eq. simpl. by rewrite Hz.
Qed.

(** X6 at "join_room?room_id: 7th". *)
Lemma join_room_reads_leading_integer_witness :
  (find "/" " 7th" = None ∧ stoi " 7th" = inl 7)
  ∧ check_message "join_room?room_id: 7th" initial_world =
    (log [Cout [Str "Joining room with id: "; Int 7]] initial_world, Returned).
Proof.
  assert (find "/" " 7th" = None) as Hv by reflexivity.
  assert (stoi " 7th" = inl 7) as Hz by reflexivity.
  split; [done |].
  exact (join_room_reads_leading_integer " 7th" 7 initial_world Hv Hz).
Defined.

(** ** Broadcast, whatever the connections *)

(** The loop writes to a sound initial part of the members and leaves the
    set of broken connections as it was. *)
Lemma broadcast_loop_written (l : list Session) (message : string) (n : Net) :
  ∃ l1 l2,
    l = l1 ++ l2 ∧ (∀ m, m ∈ l1 → m ∉ broken n)
    ∧ (broadcast_loop l message n).1 =
      {| broken := broken n; sent := sent n ++ deliveries l1 message |}
    ∧ ((broadcast_loop l message n).2 = Returned ↔ l2 = []).
Proof.
  destruct (decide (Exists (λ m, m ∈ broken n) l)) as [He|He].
  - apply Exists_exists in He.
    destruct (first_broken l (broken n) He) as (l1 & x & l2 & -> & Hx & Hl1).
    exists l1, (x :: l2). rewrite broadcast_loop_broken by done.
    simpl. split; [done |]. split; [done |]. split; [done |]. by split.
  - exists l, []. rewrite app_nil_r.
    assert (∀ m, m ∈ l → m ∉ broken n) as Hl.
    { intros m Hm Hb. apply He, Exists_exists. by exists m. }
    rewrite broadcast_loop_healthy by done. simpl. by repeat split.
Qed.

Section RoomFurther.
Context {U : UnorderedIteration}.

(** X7. When a broadcast returns: a broadcast returns to its caller exactly
    when no member of the room has a broken connection; with one broken
    member it raises, whoever the message comes from. *)
Theorem broadcast_returns_iff_all_sound (r : ChatRoom) (message : string)
    (n : Net) :
  (broadcast r message n).2 = Returned
  ↔ ∀ m, m ∈ members_ r → m ∉ broken n.
Proof.
  split.
  - intros Ho m Hm Hb.
    destruct (first_broken (iteration (members_ r)) (broken n))
      as (l1 & x & l2 & E & Hx & Hl1).
    { exists m. by rewrite iteration_elem_of. }
    unfold broadcast in Ho. rewrite E in Ho.
    by rewrite broadcast_loop_broken in Ho.
  - intros H. by rewrite broadcast_healthy.
Qed.

(** X8. What one broadcast can deliver: whether it returns or raises, a
    broadcast adds to what a session has received either nothing or one
    copy of the message line; it adds nothing for a session that is not a
    member or whose connection is broken, and it never changes which
    connections are broken. *)
Theorem broadcast_at_most_one_copy (r : ChatRoom) (message : string)
    (n : Net) (m : Session) :
  broken (broadcast r message n).1 = broken n
  ∧ ∃ added,
      received (broadcast r message n).1 m = received n m ++ added
      ∧ (added = [] ∨ added = [message +:+ newline])
      ∧ (m ∉ members_ r ∨ m ∈ broken n → added = []).
Proof.
  unfold broadcast.
  destruct (broadcast_loop_written (iteration (members_ r)) message n)
    as (l1 & l2 & E & Hl1 & -> & _).
  split; [done |].
  assert (NoDup l1) as Hnd.
  { pose proof (iteration_NoDup (members_ r)) as Hnd. rewrite E in Hnd.
    by apply NoDup_app in Hnd as [? _]. }
  rewrite received_deliveries by done.
  eexists. split; [reflexivity |].
  destruct (decide (m ∈ l1)) as [Hm|Hm].
  - split; [by right |]. intros [Hr|Hb].
    + exfalso. apply Hr, iteration_elem_of. rewrite E.
      apply elem_of_app. by left.
    + by apply Hl1 in Hm.
  - split; [by left | done].
Qed.


(** X10. Counting members: [member_count] grows by one on the join of a
    session that was not a member and is unchanged by the join of a member;
    it shrinks by one on the leave of a member and is unchanged by the leave
    of a session that was not one. *)
Theorem member_count_join_leave (r : ChatRoom) (s : Session) (n : Net) :
  member_count (join r s n).1.1 =
    (if decide (s ∈ members_ r) then member_count r
     else S (member_count r))
  ∧ member_count (leave r s n).1.1 =
    (if decide (s ∈ members_ r) then (member_count r - 1)%nat
     else member_count r).
Proof.
  rewrite join_unfold, leave_unfold. unfold member_count. simpl.
  case_decide as Hs; split.
  - by rewrite subseteq_union_1_L by (by apply singleton_subseteq_l).
  - rewrite size_difference by (by apply singleton_subseteq_l).
    by rewrite size_singleton.
  - rewrite size_union by (by apply disjoint_singleton_l).
    by rewrite size_singleton.
  - by rewrite difference_disjoint_L by (by apply disjoint_singleton_r).
Qed.
End RoomFurther.


(** ** The registry and the user directory *)

(** X11. [get_or_create_room]: afterwards the room id is registered with
    the room that is returned; a room registered before is returned as it
    is, with the server unchanged; every other room id, the users and the
    sessions are untouched; and a second call changes nothing more. *)
Theorem get_or_create_room_registers (srv : ChatServer) (room_id : Z) :
  let srv' := (get_or_create_room srv room_id).1 in
  let room := (get_or_create_room srv room_id).2 in
  rooms_ srv' !! room_id = Some room
  ∧ match rooms_ srv !! room_id with
    | Some room0 => srv' = srv ∧ room = room0
    | None => room = new_ChatRoom
    end
  ∧ (∀ k, k ≠ room_id → rooms_ srv' !! k = rooms_ srv !! k)
  ∧ users_ srv' = users_ srv ∧ sessions_ srv' = sessions_ srv
  ∧ get_or_create_room srv' room_id = (srv', room).
Proof.
  unfold get_or_create_room.
  destruct (rooms_ srv !! room_id) as [room0|] eqn:E; simpl.
  - rewrite E. by repeat split.
  - rewrite lookup_insert_eq. repeat split; try done.
    intros k Hk. by rewrite lookup_insert_ne.
Qed.

(** X12. [remove_empty_room]: afterwards the room id is either not
    registered or registered with a room that has a member; the entry is
    erased, and the removal printed, exactly when a room without members was
    registered under the id; every other room id is untouched; and a second
    call changes nothing and prints nothing. *)
Theorem remove_empty_room_postcondition (srv : ChatServer) (room_id : Z) :
  let srv' := (remove_empty_room srv room_id).1 in
  match rooms_ srv !! room_id with
  | Some room =>
      if decide (members_ room = ∅)
      then rooms_ srv' !! room_id = None
           ∧ (remove_empty_room srv room_id).2 = [room_removed room_id]
      else srv' = srv ∧ (remove_empty_room srv room_id).2 = []
  | None => srv' = srv ∧ (remove_empty_room srv room_id).2 = []
  end
  ∧ (∀ k, k ≠ room_id → rooms_ srv' !! k = rooms_ srv !! k)
  ∧ remove_empty_room srv' room_id = (srv', []).
Proof.
  unfold remove_empty_room, member_count.
  destruct (rooms_ srv !! room_id) as [room|] eqn:E.
  - case_decide as Hm.
    + rewrite Hm, size_empty. simpl. rewrite lookup_delete_eq.
      repeat split; try done.
      intros k Hk. by rewrite lookup_delete_ne.
    + destruct (Nat.eqb_spec (size (members_ room)) 0) as [Hz|Hz].
      { by apply size_empty_iff, leibniz_equiv in Hz. }
      simpl. rewrite E.
      destruct (Nat.eqb_spec (size (members_ room)) 0); [done |].
      by repeat split.
  - simpl. rewrite E. by repeat split.
Qed.

(** X13. The user directory: after [add_user] the user is found under its
    id, in place of any user stored under that id before; after
    [remove_user] nothing is found under the id; lookups of other ids are not
    affected by either, and neither touches the rooms. *)
Theorem user_directory_lookup (srv : ChatServer) (user : ChatUser)
    (user_id : Z) :
  get_user (add_user user srv) user_id =
    (if decide (user_id = user_id_ user) then Some user
     else get_user srv user_id)
  ∧ (∀ removed, get_user (remove_user removed srv) user_id =
       if decide (user_id = removed) then None else get_user srv user_id)
  ∧ rooms_ (add_user user srv) = rooms_ srv
  ∧ ∀ removed, rooms_ (remove_user removed srv) = rooms_ srv.
Proof.
  unfold get_user, add_user, remove_user. simpl.
  split; [| split; [| done]].
  - case_decide as H; [subst; apply lookup_insert_eq |].
    by rewrite lookup_insert_ne.
  - intros removed. case_decide as H; [subst; apply lookup_delete_eq |].
    by rewrite lookup_delete_ne.
Qed.

Section RegistryFurther.
Context {U : UnorderedIteration}.

Lemma remove_empty_room_other (srv : ChatServer) (room_id k : Z) :
  k ≠ room_id →
  rooms_ (remove_empty_room srv room_id).1 !! k = rooms_ srv !! k.
Proof.
  intros Hk. unfold remove_empty_room.
  destruct (rooms_ srv !! room_id) as [room|]; [| done].
  destruct (member_count room =? 0)%nat; [| done].
  simpl. by rewrite lookup_delete_ne.
Qed.

(** The registry after [get_or_create_room(id).leave(s)]. *)
Lemma on_room_leave_rooms (room_id : Z) (s : Session) (w : World) :
  rooms_ (server (on_room leave room_id s w).1) =
  <[room_id := {| members_ :=
       members_ (default new_ChatRoom (rooms_ (server w) !! room_id))
       ∖ {[s]} |}]> (rooms_ (server w)).
Proof.
  unfold on_room, get_or_create_room.
  destruct (rooms_ (server w) !! room_id) as [room|] eqn:E;
    rewrite leave_unfold; simpl; [done |].
  by rewrite insert_insert_eq.
Qed.

(** X14. What [leave_room] leaves behind: when [leave_room] returns, the
    session's room id is either not registered or registered with a room
    that has a member and does not hold the session; every other room id is
    as before. *)
Theorem leave_room_leaves_no_empty_room (cs : ChatSession) (w : World)
    (Hret : (leave_room cs w).2 = Returned) :
  match rooms_ (server (leave_room cs w).1) !! room_id_ cs with
  | Some room => members_ room ≠ ∅ ∧ self_ cs ∉ members_ room
  | None => True
  end
  ∧ ∀ k, k ≠ room_id_ cs →
      rooms_ (server (leave_room cs w).1) !! k = rooms_ (server w) !! k.
Proof.
  unfold leave_room in *.
  pose proof (on_room_leave_rooms (room_id_ cs) (self_ cs) w) as Hrooms.
  destruct (on_room leave (room_id_ cs) (self_ cs) w) as [w1 [|e]];
    [| discriminate Hret].
  simpl in Hrooms.
  pose proof (remove_empty_room_other (server w1) (room_id_ cs)) as Hother.
  assert (rooms_ (server w1) !! room_id_ cs =
          Some {| members_ :=
            members_ (default new_ChatRoom (rooms_ (server w) !! room_id_ cs))
            ∖ {[self_ cs]} |}) as Hl
    by (rewrite Hrooms; apply lookup_insert_eq).
  split.
  - destruct (decide (members_ (default new_ChatRoom
                (rooms_ (server w) !! room_id_ cs)) ∖ {[self_ cs]} = ∅))
      as [Hm|Hm].
    + rewrite (remove_empty_room_removes _ _ _ Hl Hm). simpl.
      by rewrite lookup_delete_eq.
    + pose proof (remove_empty_room_keeps _ (room_id_ cs) _ _ Hl Hm) as Hk.
      destruct (remove_empty_room (server w1) (room_id_ cs)) as [srv evs].
      simpl in *. rewrite Hk. split; [done |]. simpl.
      rewrite elem_of_difference, elem_of_singleton. by intros [_ ?].
  - intros k Hk. specialize (Hother k Hk).
    destruct (remove_empty_room (server w1) (room_id_ cs)) as [srv evs].
    simpl in *. rewrite Hother, Hrooms. by rewrite lookup_insert_ne.
Qed.

(** X15. Leaving a room that is not registered: [leave_room] with a room id
    that the registry does not hold returns with the server and the network
    exactly as before; it registers the room, finds it empty and removes it
    again, and prints the removal of a room that never had a member. *)
Theorem leave_room_unregistered (cs : ChatSession) (w : World)
    (Hnone : rooms_ (server w) !! room_id_ cs = None) :
  leave_room cs w = (log [room_removed (room_id_ cs)] w, Returned).
Proof.
  unfold leave_room, on_room, get_or_create_room. rewrite Hnone.
  rewrite leave_unfold. simpl.
  rewrite broadcast_empty
    by (simpl; apply subseteq_empty_difference_L, empty_subseteq).
  simpl.
  erewrite remove_empty_room_removes;
    [| apply lookup_insert_eq
     | simpl; apply subseteq_empty_difference_L, empty_subseteq].
  unfold log. simpl. f_equal. destruct w as [srv n d c]. simpl in *.
  f_equal. unfold put_room, set_rooms. destruct srv as [rs us ss].
  simpl in *. f_equal.
  rewrite delete_insert_eq, delete_insert_eq. by apply delete_id.
Qed.
End RegistryFurther.

(** X14 at the room that session 4 entered alone as room 7. *)
Lemma leave_room_leaves_no_empty_room_witness :
  let U := elements_iteration in
  let cs := (on_initial_data (connecting 4%nat stale_int "7,1") Success initial_world).1.1 in
  let w := (on_initial_data (connecting 4%nat stale_int "7,1") Success initial_world).1.2 in
  (leave_room cs w).2 = Returned
  ∧ match rooms_ (server (leave_room cs w).1) !! room_id_ cs with
    | Some room => members_ room ≠ ∅ ∧ self_ cs ∉ members_ room
    | None => True
    end.
Proof.
  intros U cs w.
  assert ((leave_room cs w).2 = Returned) as Hret by (vm_compute; reflexivity).
  split; [exact Hret |].
  exact (proj1 (leave_room_leaves_no_empty_room cs w Hret)).
Defined.

(** X15 at a session of room 9 on the server without rooms. *)
Lemma leave_room_unregistered_witness :
  let U := elements_iteration in
  let cs := {| self_ := 4%nat; room_id_ := 9; buffer_ := EmptyString |} in
  rooms_ (server initial_world) !! room_id_ cs = None
  ∧ leave_room cs initial_world =
    (log [room_removed 9] initial_world, Returned).
Proof.
  intros U cs.
  assert (rooms_ (server initial_world) !! room_id_ cs = None) as Hnone
    by reflexivity.
  split; [exact Hnone |].
  exact (leave_room_unregistered cs initial_world Hnone).
Defined.

(** ** The handlers of a connection *)

Lemma line_length_split (buffer : string) (length : nat) :
  line_length buffer = Some length →
  buffer = substr buffer 0 (length - 1) +:+ newline
             +:+ substr_from buffer length
  ∧ find newline_char (substr buffer 0 (length - 1)) = None.
Proof.
  unfold line_length. intros H.
  destruct (find newline_char buffer) as [i|] eqn:E; [| done].
  injection H as <-. replace (S i - 1)%nat with i by lia.
  unfold substr. rewrite substr_from_0.
  destruct (find_Some_split _ _ _ E) as [Hb Hp]. split; [exact Hb | done].
Qed.

Section HandlersFurther.
Context {U : UnorderedIteration}.

(** What calling a member function on [get_or_create_room(id)] does to the
    world: the entry of [id] is rewritten, nothing else of the server, and
    neither the database nor the console. *)
Lemma on_room_frame f (room_id : Z) (s : Session) (w : World) :
  let room := default new_ChatRoom (rooms_ (server w) !! room_id) in
  server (on_room f room_id s w).1 =
    put_room room_id (f room s (net w)).1.1 (server w)
  ∧ net (on_room f room_id s w).1 = (f room s (net w)).1.2
  ∧ (on_room f room_id s w).2 = (f room s (net w)).2
  ∧ db (on_room f room_id s w).1 = db w
  ∧ console (on_room f room_id s w).1 = console w.
Proof.
  unfold on_room, get_or_create_room.
  destruct (rooms_ (server w) !! room_id) as [room|] eqn:E; simpl.
  - by destruct (f room s (net w)) as [[room' n] o].
  - destruct (f new_ChatRoom s (net w)) as [[room' n] o]. simpl.
    repeat split. unfold put_room, set_rooms. simpl.
    by rewrite insert_insert_eq.
Qed.

(** X16. The first line of a connection: when the buffer holds a line whose
    text before the first [','] converts with [stoi] to [v], the handler of
    [read_initial_data] takes that line off the buffer, sets the session's
    room id to [v] and inserts the session into room [v], registering the
    room when it was not; this happens also when the broadcast of the join
    notice raises.  What follows the comma is not read, other rooms are
    untouched, and nothing is printed or saved. *)
Theorem first_line_joins_named_room (cs : ChatSession) (w : World)
    (length comma_pos : nat) (v : Z)
    (Hline : line_length (buffer_ cs) = Some length)
    (Hcomma : find "," (substr (buffer_ cs) 0 (length - 1)) = Some comma_pos)
    (Hid : stoi (prefix (substr (buffer_ cs) 0 (length - 1)) comma_pos)
           = inl v) :
  let res := on_initial_data cs Success w in
  res.1.1 = {| self_ := self_ cs; room_id_ := v;
               buffer_ := substr_from (buffer_ cs) length |}
  ∧ rooms_ (server res.1.2) !! v =
    Some {| members_ :=
      {[self_ cs]} ∪ members_ (default new_ChatRoom (rooms_ (server w) !! v)) |}
  ∧ (∀ k, k ≠ v → rooms_ (server res.1.2) !! k = rooms_ (server w) !! k)
  ∧ console res.1.2 = console w ∧ db res.1.2 = db w.
Proof.
  intros res. subst res. unfold on_initial_data, parse_initial_data.
  rewrite Hline, Hcomma, Hid. simpl. rewrite log_nil.
  pose proof (on_room_frame join v (self_ cs) w) as (Hs & _ & _ & Hd & Hc).
  destruct (on_room join v (self_ cs) w) as [w' o]. simpl in *.
  split; [done |]. rewrite Hs, join_unfold. simpl.
  rewrite lookup_insert_eq.
  split; [done |]. split; [| done].
  intros k Hk. by rewrite lookup_insert_ne.
Qed.

(** X17. A first line with a bad room id: when the text before the comma
    does not convert, the handler of [read_initial_data] raises the
    exception of [stoi] after taking the line off the buffer; the session
    joins no room and the server, the network, the database and the console
    are as before. *)
Theorem first_line_bad_room_id (cs : ChatSession) (w : World)
    (length comma_pos : nat) (e : exn)
    (Hline : line_length (buffer_ cs) = Some length)
    (Hcomma : find "," (substr (buffer_ cs) 0 (length - 1)) = Some comma_pos)
    (Hid : stoi (prefix (substr (buffer_ cs) 0 (length - 1)) comma_pos)
           = inr e) :
  on_initial_data cs Success w =
  ({| self_ := self_ cs; room_id_ := room_id_ cs;
      buffer_ := substr_from (buffer_ cs) length |}, w, Thrown e).
Proof.
  unfold on_initial_data, parse_initial_data.
  rewrite Hline, Hcomma, Hid. simpl. by rewrite log_nil.
Qed.

(** X18. Line framing of [do_read]: when the buffer holds a line, the
    handler takes exactly that line off the buffer: the message it
    broadcasts, followed by the delimiter and by the buffer it leaves, is
    the buffer it found, and the message holds no delimiter.  The message
    goes to the room registered under the session's room id, or to a new
    empty room when there is none. *)
Theorem on_read_takes_one_line (cs : ChatSession) (w : World) (length : nat)
    (Hline : line_length (buffer_ cs) = Some length) :
  let message := substr (buffer_ cs) 0 (length - 1) in
  let res := on_read cs Success w in
  buffer_ cs = message +:+ newline +:+ buffer_ res.1.1
  ∧ find newline_char message = None
  ∧ self_ res.1.1 = self_ cs ∧ room_id_ res.1.1 = room_id_ cs
  ∧ (net res.1.2, res.2) =
    broadcast (default new_ChatRoom (rooms_ (server w) !! room_id_ cs))
              message (net w).
Proof.
  intros message res. subst message res. unfold on_read. rewrite Hline.
  destruct (line_length_split _ _ Hline) as [Hb Hn].
  match goal with
  | |- context [on_room ?f ?i ?s w] =>
      pose proof (on_room_frame f i s w) as (_ & Hnet & Ho & _ & _);
      destruct (on_room f i s w) as [w' o]
  end.
  simpl in *. split; [exact Hb |]. split; [exact Hn |].
  split; [done |]. split; [done |].
  rewrite Hnet, Ho. by destruct (broadcast _ _ (net w)).
Qed.

(** X19. Delivery of a line: when the buffer holds a line, the session's
    room id is registered and no member of that room has a broken
    connection, the handler of [do_read] returns, every member of the room,
    the sender included when it is one, receives exactly one copy of the
    line, every other session receives nothing, and the server is as
    before. *)
Theorem on_read_delivers_to_room (cs : ChatSession) (w : World)
    (length : nat) (room : ChatRoom)
    (Hline : line_length (buffer_ cs) = Some length)
    (Hroom : rooms_ (server w) !! room_id_ cs = Some room)
    (Hnet : ∀ m, m ∈ members_ room → m ∉ broken (net w)) :
  let message := substr (buffer_ cs) 0 (length - 1) in
  let res := on_read cs Success w in
  res.2 = Returned
  ∧ server res.1.2 = server w
  ∧ ∀ m, received (net res.1.2) m =
         received (net w) m ++
         (if decide (m ∈ members_ room) then [message +:+ newline] else []).
Proof.
  intros message res. subst message res. unfold on_read. rewrite Hline.
  match goal with
  | |- context [on_room ?f ?i ?s w] =>
      pose proof (on_room_frame f i s w) as (Hs & Hn & Ho & _ & _);
      destruct (on_room f i s w) as [w' o]
  end.
  simpl in *. rewrite Hroom in Hs, Hn, Ho. simpl in *.
  destruct (broadcast_received room
              (substr (buffer_ cs) 0 (length - 1)) (net w) Hnet) as [Hr Hrec].
  destruct (broadcast room _ (net w)) as [n' o'] eqn:Eb. simpl in *.
  subst o o'. split; [done |]. split.
  - rewrite Hs. unfold put_room, set_rooms.
    destruct (server w) as [rs us ss]. simpl in *.
    by rewrite insert_id.
  - intros m. rewrite Hn. apply Hrec.
Qed.

(** X20. The handlers never unregister a room: whatever the completion,
    every room id registered before the handler of [read_initial_data] or
    of [do_read] runs is registered after it; and after a failed read the
    session's room id is registered, whether or not it was. *)
Theorem handlers_never_unregister (cs : ChatSession) (c : completion)
    (w : World) :
  dom (rooms_ (server w)) ⊆ dom (rooms_ (server (on_read cs c w).1.2))
  ∧ dom (rooms_ (server w))
    ⊆ dom (rooms_ (server (on_initial_data cs c w).1.2))
  ∧ ∀ ec_message,
      room_id_ cs
      ∈ dom (rooms_ (server (on_read cs (Failure ec_message) w).1.2)).
Proof.
  assert (∀ f i s w0,
            dom (rooms_ (server w0))
            ⊆ dom (rooms_ (server (on_room f i s w0).1))
            ∧ i ∈ dom (rooms_ (server (on_room f i s w0).1))) as Hdom.
  { intros f i s w0. destruct (on_room_frame f i s w0) as (-> & _).
    unfold put_room, set_rooms. simpl. rewrite dom_insert_L.
    split; [apply union_subseteq_r | apply elem_of_union_l].
    by apply elem_of_singleton. }
  split; [| split].
  - unfold on_read. destruct c as [|m].
    + destruct (line_length (buffer_ cs)) as [length|]; [| done].
      match goal with
      | |- context [on_room ?f ?i ?s w] =>
          pose proof (Hdom f i s w) as [H _];
          destruct (on_room f i s w) as [w' o]
      end.
      exact H.
    + pose proof (Hdom leave (room_id_ cs) (self_ cs) w) as [H _].
      by destruct (on_room leave (room_id_ cs) (self_ cs) w) as [w' o].
  - unfold on_initial_data. destruct c as [|m]; [| done].
    destruct (line_length (buffer_ cs)) as [length|]; [| done].
    destruct (parse_initial_data _ _) as [[cs2 evs] [|e]]; [| done].
    pose proof (Hdom join (room_id_ cs2) (self_ cs2) (log evs w)) as [H _].
    by destruct (on_room join (room_id_ cs2) (self_ cs2) (log evs w))
      as [w' o].
  - intros ec_message. unfold on_read.
    pose proof (Hdom leave (room_id_ cs) (self_ cs) w) as [_ H].
    by destruct (on_room leave (room_id_ cs) (self_ cs) w) as [w' o].
Qed.
End HandlersFurther.

(** X16 at the first line "7,1" of session 4 on the server without rooms. *)
Lemma first_line_joins_named_room_witness :
  let U := elements_iteration in
  let cs := connecting 4%nat stale_int "7,1" in
  (line_length (buffer_ cs) = Some 4%nat
   ∧ find "," (substr (buffer_ cs) 0 (4 - 1)) = Some 1%nat
   ∧ stoi (prefix (substr (buffer_ cs) 0 (4 - 1)) 1) = inl 7)
  ∧ (on_initial_data cs Success initial_world).1.1 =
    {| self_ := 4%nat; room_id_ := 7; buffer_ := substr_from (buffer_ cs) 4 |}.
Proof.
  intros U cs.
  assert (line_length (buffer_ cs) = Some 4%nat) as Hline by reflexivity.
  assert (find "," (substr (buffer_ cs) 0 (4 - 1)) = Some 1%nat) as Hcomma
    by reflexivity.
  assert (stoi (prefix (substr (buffer_ cs) 0 (4 - 1)) 1) = inl 7) as Hid
    by reflexivity.
  split; [done |].
  exact (proj1 (first_line_joins_named_room cs initial_world 4%nat 1%nat 7
                  Hline Hcomma Hid)).
Defined.

(** X17 at the first line "abc,1". *)
Lemma first_line_bad_room_id_witness :
  let U := elements_iteration in
  let cs := connecting 4%nat stale_int "abc,1" in
  (line_length (buffer_ cs) = Some 6%nat
   ∧ find "," (substr (buffer_ cs) 0 (6 - 1)) = Some 3%nat
   ∧ stoi (prefix (substr (buffer_ cs) 0 (6 - 1)) 3) = inr invalid_argument)
  ∧ on_initial_data cs Success initial_world =
    ({| self_ := 4%nat; room_id_ := room_id_ cs;
        buffer_ := substr_from (buffer_ cs) 6 |},
     initial_world, Thrown invalid_argument).
Proof.
  intros U cs.
  assert (line_length (buffer_ cs) = Some 6%nat) as Hline by reflexivity.
  assert (find "," (substr (buffer_ cs) 0 (6 - 1)) = Some 3%nat) as Hcomma
    by reflexivity.
  assert (stoi (prefix (substr (buffer_ cs) 0 (6 - 1)) 3)
          = inr invalid_argument) as Hid by reflexivity.
  split; [done |].
  exact (first_line_bad_room_id cs initial_world 6%nat 3%nat invalid_argument
           Hline Hcomma Hid).
Defined.

(** X18 at a buffer that holds the line "hi" and the start of another. *)
Lemma on_read_takes_one_line_witness :
  let U := elements_iteration in
  let cs := {| self_ := 4%nat; room_id_ := 7;
               buffer_ := "hi" +:+ newline +:+ "the" |} in
  line_length (buffer_ cs) = Some 3%nat
  ∧ buffer_ cs =
    substr (buffer_ cs) 0 (3 - 1) +:+ newline
      +:+ buffer_ (on_read cs Success initial_world).1.1.
Proof.
  intros U cs.
  assert (line_length (buffer_ cs) = Some 3%nat) as Hline by reflexivity.
  split; [exact Hline |].
  exact (proj1 (on_read_takes_one_line cs initial_world 3%nat Hline)).
Defined.

(** X19 at session 4 sending "hi" to room 7, which it entered alone. *)
Lemma on_read_delivers_to_room_witness :
  let U := elements_iteration in
  let w := (on_initial_data (connecting 4%nat stale_int "7,1") Success initial_world).1.2 in
  let cs := {| self_ := 4%nat; room_id_ := 7; buffer_ := "hi" +:+ newline |} in
  (line_length (buffer_ cs) = Some 3%nat
   ∧ rooms_ (server w) !! room_id_ cs = Some (room_of [4%nat])
   ∧ ∀ m, m ∈ members_ (room_of [4%nat]) → m ∉ broken (net w))
  ∧ (on_read cs Success w).2 = Returned
  ∧ server (on_read cs Success w).1.2 = server w.
Proof.
  intros U w cs.
  assert (line_length (buffer_ cs) = Some 3%nat) as Hline by reflexivity.
  assert (rooms_ (server w) !! room_id_ cs = Some (room_of [4%nat])) as Hroom
    by (vm_compute; reflexivity).
  assert (∀ m, m ∈ members_ (room_of [4%nat]) → m ∉ broken (net w)) as Hnet
    by (intros m _; apply not_elem_of_empty).
  split; [done |].
  pose proof (on_read_delivers_to_room cs w 3%nat (room_of [4%nat])
                Hline Hroom Hnet) as (Ho & Hs & _).
  by split.
Defined.

(** ** Saving messages *)

Lemma c_str_split (message : string) :
  find zero (c_str message) = None
  ∧ (∃ rest, message = c_str message +:+ rest)
  ∧ (c_str message = message ↔ find zero message = None).
Proof.
  unfold c_str. destruct (find zero message) as [i|] eqn:E.
  - destruct (find_Some_split _ _ _ E) as [Hm Hp].
    split; [done |]. split; [by eexists |].
    split; [| done]. intros Heq. rewrite Heq in Hp. congruence.
  - split; [done |]. split; [| done].
    exists EmptyString. clear. induction message as [|a m IH]; [done |].
    exact (f_equal (String a) IH).
Qed.

(** X21. The text that is saved: when the sqlite calls succeed,
    [save_message_to_db] appends one row with the room id and user id it
    is given, and reports nothing; the row's text is the message up to its
    first zero byte: it holds no zero byte, the message starts with it, and
    it is the whole message exactly when the message holds no zero byte. *)
Theorem saved_text_stops_at_zero_byte (q : Sqlite) (room_id user_id : Z)
    (message : string) (d : Database)
    (Hq : open_ok q && prepare_ok q && step_ok q = true) :
  ∃ row,
    save_message_to_db q room_id user_id message d =
      ({| talks := talks d ++ [row]; talks_seq := talks_seq d + 1 |}, [])
    ∧ talk_room_id row = room_id ∧ talk_user_id row = user_id
    ∧ find zero (talk_text row) = None
    ∧ (∃ rest, message = talk_text row +:+ rest)
    ∧ (talk_text row = message ↔ find zero message = None).
Proof.
  apply andb_prop in Hq as [Hq Hs]. apply andb_prop in Hq as [Ho Hp].
  exists (saved_row q d room_id user_id message).
  rewrite save_message_to_db_success by done.
  split; [done |]. split; [done |]. split; [done |]. apply c_str_split.
Qed.

(** X21 at a message with a zero byte after its first character. *)
Lemma saved_text_stops_at_zero_byte_witness :
  open_ok sound_sqlite && prepare_ok sound_sqlite && step_ok sound_sqlite
  = true
  ∧ ∃ row,
      save_message_to_db sound_sqlite 1 1 zero_in_the_middle fresh_database =
        ({| talks := [row]; talks_seq := 1 |}, [])
      ∧ find zero (talk_text row) = None.
Proof.
  assert (open_ok sound_sqlite && prepare_ok sound_sqlite
          && step_ok sound_sqlite = true) as Hq by reflexivity.
  split; [exact Hq |].
  destruct (saved_text_stops_at_zero_byte sound_sqlite 1 1 zero_in_the_middle
              fresh_database Hq) as (row & Hsave & _ & _ & Hz & _).
  exists row. by split.
Defined.

Section SingleRoomFurther.
Context {U : UnorderedIteration}.

(** X22. Delivery does not wait for the database: in the single-room
    server, when a line is read, no member has a broken connection and one
    of the sqlite calls fails, the handler of [do_read] still returns with
    the line delivered once to every member of the room; no row is saved,
    the failure is printed as one line on the error stream, and the room is
    as before. *)
Theorem single_room_delivers_when_save_fails (q : Sqlite)
    (cs : SingleRoom.ChatSession) (w : SingleRoom.World) (length : nat)
    (Hline : line_length (SingleRoom.buffer_ cs) = Some length)
    (Hnet : ∀ m, m ∈ members_ (SingleRoom.room_ (SingleRoom.server w)) →
                 m ∉ broken (SingleRoom.net w))
    (Hq : open_ok q && prepare_ok q && step_ok q = false) :
  let message := substr (SingleRoom.buffer_ cs) 0 (length - 1) in
  let res := SingleRoom.on_read q cs Success w in
  res.2 = Returned
  ∧ SingleRoom.db res.1.2 = SingleRoom.db w
  ∧ SingleRoom.server res.1.2 = SingleRoom.server w
  ∧ (∃ l, SingleRoom.console res.1.2 = SingleRoom.console w ++ [Cerr l])
  ∧ ∀ m, received (SingleRoom.net res.1.2) m =
         received (SingleRoom.net w) m ++
         (if decide (m ∈ members_ (SingleRoom.room_ (SingleRoom.server w)))
          then [message +:+ newline] else []).
Proof.
  intros message res. subst message res. unfold SingleRoom.on_read.
  rewrite Hline.
  destruct (broadcast_received (SingleRoom.room_ (SingleRoom.server w))
              (substr (SingleRoom.buffer_ cs) 0 (length - 1))
              (SingleRoom.net w) Hnet) as [Ho Hrec].
  destruct (broadcast _ _ (SingleRoom.net w)) as [n' o]. simpl in Ho, Hrec.
  subst o.
  destruct (save_message_to_db_failure q (SingleRoom.room_id_ cs)
              (SingleRoom.user_id_ cs)
              (substr (SingleRoom.buffer_ cs) 0 (length - 1))
              (SingleRoom.db w) Hq) as [Hd [l Hl]].
  destruct (save_message_to_db _ _ _ _ _) as [d evs]. simpl in *.
  subst d evs. split; [done |]. split; [done |]. split; [done |].
  split; [by exists l | exact Hrec].
Qed.

(** X23. A broken connection stops the save: in the single-room server,
    when a line is read and some member of the room has a broken
    connection, the handler of [do_read] raises the [system_error] of such a
    member, and the line is not saved, even with a sound database; nothing
    is printed. *)
Theorem single_room_raise_skips_save (q : Sqlite)
    (cs : SingleRoom.ChatSession) (w : SingleRoom.World) (length : nat)
    (Hline : line_length (SingleRoom.buffer_ cs) = Some length)
    (Hbroken : ∃ m, m ∈ members_ (SingleRoom.room_ (SingleRoom.server w))
                    ∧ m ∈ broken (SingleRoom.net w)) :
  let res := SingleRoom.on_read q cs Success w in
  (∃ x, res.2 = Thrown (system_error x)
        ∧ x ∈ members_ (SingleRoom.room_ (SingleRoom.server w))
        ∧ x ∈ broken (SingleRoom.net w))
  ∧ SingleRoom.db res.1.2 = SingleRoom.db w
  ∧ SingleRoom.console res.1.2 = SingleRoom.console w.
Proof.
  intros res. subst res. unfold SingleRoom.on_read. rewrite Hline.
  destruct Hbroken as (m & Hm & Hb).
  destruct (first_broken
              (iteration (members_ (SingleRoom.room_ (SingleRoom.server w))))
              (broken (SingleRoom.net w)))
    as (l1 & x & l2 & E & Hx & Hl1).
  { exists m. by rewrite iteration_elem_of. }
  unfold broadcast. rewrite E, broadcast_loop_broken by done. simpl.
  split; [| done]. exists x. split; [done |]. split; [| done].
  apply iteration_elem_of. rewrite E. apply elem_of_app. right. left.
Qed.
End SingleRoomFurther.

(** X22 at the line "hi" of session 1 with a database that does not open. *)
Lemma single_room_delivers_when_save_fails_witness :
  let U := elements_iteration in
  let q := {| open_ok := false; prepare_ok := true; step_ok := true;
              errmsg := "unable to open database file";
              now := EmptyString |} in
  let cs := single_room_session "hi" in
  let w := single_room_world in
  (line_length (SingleRoom.buffer_ cs) = Some 3%nat
   ∧ (∀ m, m ∈ members_ (SingleRoom.room_ (SingleRoom.server w)) →
           m ∉ broken (SingleRoom.net w))
   ∧ open_ok q && prepare_ok q && step_ok q = false)
  ∧ (SingleRoom.on_read q cs Success w).2 = Returned
  ∧ SingleRoom.db (SingleRoom.on_read q cs Success w).1.2 = SingleRoom.db w.
Proof.
  intros U q cs w.
  assert (line_length (SingleRoom.buffer_ cs) = Some 3%nat) as Hline
    by reflexivity.
  assert (∀ m, m ∈ members_ (SingleRoom.room_ (SingleRoom.server w)) →
               m ∉ broken (SingleRoom.net w)) as Hnet
    by (intros m _; apply not_elem_of_empty).
  assert (open_ok q && prepare_ok q && step_ok q = false) as Hq
    by reflexivity.
  split; [done |].
  pose proof (single_room_delivers_when_save_fails q cs w 3%nat
                Hline Hnet Hq) as (Ho & Hd & _).
  by split.
Defined.

(** X23 at the line "hi" of session 1, whose own connection is broken. *)
Lemma single_room_raise_skips_save_witness :
  let U := elements_iteration in
  let cs := single_room_session "hi" in
  let w := {| SingleRoom.server := {| SingleRoom.room_ := room_of [1%nat] |};
              SingleRoom.net := {| broken := {[1%nat]}; sent := [] |};
              SingleRoom.db := fresh_database; SingleRoom.console := [] |} in
  (line_length (SingleRoom.buffer_ cs) = Some 3%nat
   ∧ ∃ m, m ∈ members_ (SingleRoom.room_ (SingleRoom.server w))
          ∧ m ∈ broken (SingleRoom.net w))
  ∧ SingleRoom.db (SingleRoom.on_read sound_sqlite cs Success w).1.2
    = fresh_database.
Proof.
  intros U cs w.
  assert (line_length (SingleRoom.buffer_ cs) = Some 3%nat) as Hline
    by reflexivity.
  assert (∃ m, m ∈ members_ (SingleRoom.room_ (SingleRoom.server w))
               ∧ m ∈ broken (SingleRoom.net w)) as Hbroken.
  { exists 1%nat. split; [vm_compute; set_solver |].
    subst w. simpl. by apply elem_of_singleton_2. }
  split; [done |].
  exact (proj1 (proj2 (single_room_raise_skips_save sound_sqlite cs w 3%nat
                         Hline Hbroken))).
Defined.
